(** * Task-Flow: the kanban transition engine and the performance scoring engine

    A shallow embedding of
    - [src/types/database.ts] (the [Task] and [Profile] records),
    - the [KanbanBoard] component (column grouping and the three drag
      handlers), and
    - [src/lib/performance.ts] ([calculateEmployeePerformance]),
    followed by the properties of the specification that concern them.

    Conventions.  JavaScript strings are [string]; [null] is [None];
    array lengths and counters are [Z].  A function that can throw
    returns an [option], [None] being the exception.

    The scoring function is embedded twice.  [Performance64] computes as
    the program does: the rates, the average time and the score are
    binary64 values (primitive floats, rounded to nearest, ties to even),
    and the clock is read once for every test that reads it in the
    source.  [Performance] is the same function read over the rationals,
    with a single reading of the clock for the whole call, [None]
    standing for [NaN]; the grouping, the order of the loop, the names
    and the counters are the same in both
    ([performanceData_same_counters]), and it carries the statements that
    count, bound or order.

    The board is a state machine: the React state ([activeId],
    [localTasks]) together with the list of calls made to the
    [onStatusChange] prop; every handler runs to completion on the state
    the component was last rendered with, and the props [tasks] and
    [isAdmin] stay the same between events.  The scoring function reads
    the clock; its readings are a parameter, as is the parsing of date
    strings. *)

From Stdlib Require Import ZArith QArith Qround Qabs Lia Lqa Ascii Permutation Sorted.
From Stdlib Require Floats Uint63.
From stdpp Require Import gmap strings list.

Set Default Proof Using "Type".
Set Warnings "-inexact-float".
Local Open Scope string_scope.
Local Open Scope list_scope.
Local Open Scope stdpp_scope.

(** ** JavaScript odds and ends *)

(** Truthiness of a [string | null] value: [null] and the empty string are
    falsy. *)
Definition truthy (v : option string) : bool :=
  match v with
  | Some s => negb (String.eqb s "")
  | None => false
  end.

(** Property names every object literal inherits from [Object.prototype].
    Reading one of them from an object that has no own property of that name
    yields a truthy value that is not an array. *)
Definition Object_prototype_keys : list string :=
  [ "constructor"; "__proto__"; "hasOwnProperty"; "isPrototypeOf";
    "propertyIsEnumerable"; "toLocaleString"; "toString"; "valueOf";
    "__defineGetter__"; "__defineSetter__"; "__lookupGetter__";
    "__lookupSetter__" ].

(** ** src/types/database.ts *)

Module Task.
Record t := mk {
  id : string;
  assigned_user_id : string;
  status : string;
  start_time : option string;
  finish_time : option string;
  deadline : string;
  pending_approval : bool
}.

(** The object spread [{ ...task, status: s }]. *)
Definition with_status (task : t) (s : string) : t :=
  {| id := id task;
     assigned_user_id := assigned_user_id task;
     status := s;
     start_time := start_time task;
     finish_time := finish_time task;
     deadline := deadline task;
     pending_approval := pending_approval task |}.

End Task.

Module Profile.
Record t := mk {
  id : string;
  email : string;
  full_name : option string;
  avatar_url : option string
}.
End Profile.

(** ** The kanban board *)

Module KanbanBoard.

(** The [id]s of the four rendered columns. *)
Definition columns : list string :=
  [ "todo"; "in_progress"; "in_review"; "completed" ].

(** *** Grouping of the tasks by status ([tasksByStatus]) *)

(** The object [grouped] starts with the five own keys below. *)
Definition grouped_init : gmap string (list Task.t) :=
  <["todo" := []]> (<["in_progress" := []]> (<["in_review" := []]>
    (<["completed" := []]> (<["done" := []]> ∅)))).

(** The five own keys of [grouped]. *)
Definition own_keys : list string :=
  [ "todo"; "in_progress"; "in_review"; "completed"; "done" ].

(** What the property read [grouped[k]] evaluates to. *)
Inductive js_value :=
| Arr (l : list Task.t)   (* an own property: an array, always truthy *)
| Inherited               (* a member of [Object.prototype]: truthy, no [push] *)
| Undefined.

Definition get (grouped : gmap string (list Task.t)) (k : string) : js_value :=
  match grouped !! k with
  | Some l => Arr l
  | None => if bool_decide (k ∈ Object_prototype_keys) then Inherited else Undefined
  end.

(** [grouped[k].push(task)]; [None] is the [TypeError] raised when
    [grouped[k]] has no [push]. *)
Definition push (grouped : gmap string (list Task.t)) (k : string) (task : Task.t)
  : option (gmap string (list Task.t)) :=
  match get grouped k with
  | Arr l => Some (<[k := l ++ [task]]> grouped)
  | Inherited | Undefined => None
  end.

(** One iteration of the [forEach] body. *)
Definition group_task (grouped : gmap string (list Task.t)) (task : Task.t)
  : option (gmap string (list Task.t)) :=
  match get grouped (Task.status task) with
  | Arr _ | Inherited => push grouped (Task.status task) task
  | Undefined =>
      if bool_decide (Task.status task = "done") then
        let grouped' :=
          match get grouped "completed" with
          | Undefined => <["completed" := []]> grouped
          | _ => grouped
          end in
        push grouped' "completed" task
      else Some grouped
  end.

Definition group_from (grouped : gmap string (list Task.t)) (l : list Task.t)
  : option (gmap string (list Task.t)) :=
  foldl (λ acc task, acc ≫= λ g, group_task g task) (Some grouped) l.

Definition tasksByStatus (localTasks : list Task.t)
  : option (gmap string (list Task.t)) :=
  group_from grouped_init localTasks.

(** The task list handed to the column [col]: [tasksByStatus[col] || []]. *)
Definition column_tasks (grouped : gmap string (list Task.t)) (col : string)
  : list Task.t :=
  default [] (grouped !! col).

(** *** The drag handlers *)

(** Component state, together with the calls made to the [onStatusChange]
    prop so far (oldest first). *)
Record State := mkState {
  activeId : option string;
  localTasks : list Task.t;
  onStatusChange_calls : list (string * string)
}.

Definition findContainer (localTasks : list Task.t) (id : string) : option string :=
  if bool_decide (id ∈ columns) then Some id
  else
    match list_find (λ t, Task.id t = id) localTasks with
    | Some (_, task) =>
        if bool_decide (Task.status task = "done") then Some "completed"
        else Some (Task.status task)
    | None => None
    end.

(** [tasks.find(t => t.id === id)] *)
Definition find_task (l : list Task.t) (id : string) : option Task.t :=
  snd <$> list_find (λ t, Task.id t = id) l.

Section Handlers.
(** The props of the component. *)
Variable tasks : list Task.t.
Variable isAdmin : bool.

Definition initial : State :=
  {| activeId := None; localTasks := tasks; onStatusChange_calls := [] |}.

Definition handleDragStart (st : State) (active : string) : State :=
  {| activeId := Some active;
     localTasks := localTasks st;
     onStatusChange_calls := onStatusChange_calls st |}.

(** The updater passed to [setLocalTasks] in [handleDragOver]. *)
Definition move_to (prevTasks : list Task.t) (active overContainer : string)
  : list Task.t :=
  match list_find (λ t, Task.id t = active) prevTasks with
  | None => prevTasks
  | Some (activeIndex, task) =>
      <[activeIndex := Task.with_status task overContainer]> prevTasks
  end.

Definition handleDragOver (st : State) (active : string) (over : option string)
  : State :=
  match over with
  | None => st
  | Some overId =>
      let activeContainer := findContainer (localTasks st) active in
      let overContainer := findContainer (localTasks st) overId in
      if negb (truthy activeContainer) || negb (truthy overContainer)
         || bool_decide (activeContainer = overContainer) then st
      else if bool_decide (activeContainer = Some "completed") then st
      else if negb isAdmin && bool_decide (overContainer = Some "completed") then st
      else
        match overContainer with
        | Some oc =>
            {| activeId := activeId st;
               localTasks := move_to (localTasks st) active oc;
               onStatusChange_calls := onStatusChange_calls st |}
        | None => st
        end
  end.

(** [setLocalTasks(tasks)] after [setActiveId(null)]. *)
Definition revert (st : State) : State :=
  {| activeId := None;
     localTasks := tasks;
     onStatusChange_calls := onStatusChange_calls st |}.

Definition handleDragEnd (st : State) (active : string) (over : option string)
  : State :=
  let st0 := {| activeId := None;
                localTasks := localTasks st;
                onStatusChange_calls := onStatusChange_calls st |} in
  match over with
  | None => revert st
  | Some overId =>
      let activeContainer := findContainer (localTasks st) active in
      let overContainer := findContainer (localTasks st) overId in
      if truthy activeContainer && truthy overContainer then
        if bool_decide (activeContainer = Some "completed")
           && negb (bool_decide (overContainer = Some "completed")) then revert st
        else if negb isAdmin && bool_decide (overContainer = Some "completed")
        then revert st
        else
          match find_task (localTasks st) active, find_task tasks active with
          | Some finalTask, Some originalTask =>
              if negb (bool_decide (Task.status finalTask = Task.status originalTask))
              then {| activeId := None;
                      localTasks := localTasks st;
                      onStatusChange_calls :=
                        onStatusChange_calls st ++ [(active, Task.status finalTask)] |}
              else st0
          | _, _ => st0
          end
      else st0
  end.

(** The events the drag-and-drop context delivers to the board. *)
Inductive DragEvent :=
| DragStart (active : string)
| DragOver (active : string) (over : option string)
| DragEnd (active : string) (over : option string).

Definition handle (st : State) (ev : DragEvent) : State :=
  match ev with
  | DragStart a => handleDragStart st a
  | DragOver a o => handleDragOver st a o
  | DragEnd a o => handleDragEnd st a o
  end.

Definition run (st : State) (evs : list DragEvent) : State :=
  foldl handle st evs.

(** States the board can be in after any number of events, starting in
    step with the [tasks] prop. *)
Inductive reachable : State → Prop :=
| reachable_initial : reachable initial
| reachable_handle st ev : reachable st → reachable (handle st ev).

(** States inside one gesture on the card [active]: after its
    [DragStart] on a board in step with [tasks], and any number of
    [DragOver] events. *)
Inductive dragging (active : string) : State → Prop :=
| dragging_start calls :
    dragging active
      (handleDragStart
         {| activeId := None; localTasks := tasks;
            onStatusChange_calls := calls |} active)
| dragging_over st over :
    dragging active st → dragging active (handleDragOver st active over).

(** [handleDragEnd] reverts, or keeps the local copy without a commit,
    or keeps it and commits the local status of the dragged task. *)
Inductive drop_outcome (st : State) (active : string) : State → Prop :=
| drop_revert : drop_outcome st active (revert st)
| drop_keep :
    drop_outcome st active
      {| activeId := None; localTasks := localTasks st;
         onStatusChange_calls := onStatusChange_calls st |}
| drop_commit finalTask originalTask :
    find_task (localTasks st) active = Some finalTask →
    find_task tasks active = Some originalTask →
    Task.status finalTask ≠ Task.status originalTask →
    drop_outcome st active
      {| activeId := None; localTasks := localTasks st;
         onStatusChange_calls :=
           onStatusChange_calls st ++ [(active, Task.status finalTask)] |}.

(** Position by position, a task of the local copy is the task of
    [tasks], possibly with its status replaced by a column name. *)
Definition in_step (local : list Task.t) : Prop :=
  Forall2 (λ t t0, t = t0 ∨ ∃ s, s ≠ "" ∧ t = Task.with_status t0 s) local tasks.

(** During a gesture on [active] the local copy is [tasks], except
    possibly for the status of the first task named [active]. *)
Definition gesture_shape (active : string) (local : list Task.t) : Prop :=
  local = tasks ∨
  ∃ j t0 s, list_find (λ t, Task.id t = active) tasks = Some (j, t0) ∧
            s ≠ "" ∧ local = <[j := Task.with_status t0 s]> tasks.
End Handlers.

End KanbanBoard.

(** ** src/lib/performance.ts *)

Module EmployeePerformance.
Inductive Rating := excellent | good | average | needs_improvement.

Record t := mk {
  id : string;
  name : string;
  avatar_url : option string;
  totalTasks : Z;
  completedTasks : Z;
  overdueTasks : Z;
  cancelledTasks : Z;
  efficiency : Q;
  avgCompletionTime : option Q;   (* [None] is [NaN] *)
  completionRate : Q;
  punctualityRate : Q;
  performanceScore : Q;
  performanceRating : Rating
}.

End EmployeePerformance.

(** The function read over the rationals: every Number that is not a
    counter is a [Q], and no operation rounds but [toFixed].  The values
    the program computes, in double precision, are those of
    [Performance64] below. *)
Module Performance.
Import EmployeePerformance.
Local Open Scope Q_scope.

(** *** Numbers *)

(** [a < b], [a > b] and [a <= b] on time values, false when either side
    is [NaN]. *)
Definition time_lt (a b : option Z) : bool :=
  match a, b with Some x, Some y => (x <? y)%Z | _, _ => false end.
Definition time_gt (a b : option Z) : bool := time_lt b a.
Definition time_le (a b : option Z) : bool :=
  match a, b with Some x, Some y => (x <=? y)%Z | _, _ => false end.

Definition Qlt_bool (a b : Q) : bool := negb (Qle_bool b a).

Definition Math_max (a b : Q) : Q := if Qle_bool a b then b else a.

(** [n || 0] on a counter. *)
Definition or_zero (n : Z) : Z := if (n =? 0)%Z then 0%Z else n.

(** [parseFloat(x.toFixed(1))] on a rational: the multiple of one tenth
    nearest to [x], the larger in magnitude on a tie; from [1e21] on,
    [toFixed] prints the number itself.  On a double the result is the
    double nearest to that multiple, [Double.toFixed1]. *)
Definition toFixed1 (x : Q) : Q :=
  if Qle_bool 1e21 (Qabs x) then x
  else
    let n := Qfloor (Qabs x * 10 + 0.5) in
    if Qlt_bool x 0 then - (inject_Z n / 10) else inject_Z n / 10.

(** *** Grouping by user *)

(** The object [tasksByUser]: its own properties in insertion order. *)
Definition lookup_user (acc : list (string * list Task.t)) (userId : string)
  : option (list Task.t) :=
  (λ found, found.2.2) <$> list_find (λ e, e.1 = userId) acc.

Definition push_user (acc : list (string * list Task.t)) (userId : string)
    (task : Task.t) : list (string * list Task.t) :=
  (λ e, if bool_decide (e.1 = userId) then (e.1, e.2 ++ [task]) else e) <$> acc.

(** The callback of [tasks.reduce].  A user id that names a member of
    [Object.prototype] reads as truthy without being an array, and the
    [push] raises a [TypeError] ([None]). *)
Definition group_by_user (acc : list (string * list Task.t)) (task : Task.t)
  : option (list (string * list Task.t)) :=
  let userId := Task.assigned_user_id task in
  match lookup_user acc userId with
  | Some _ => Some (push_user acc userId task)
  | None =>
      if bool_decide (userId ∈ Object_prototype_keys) then None
      else Some (push_user (acc ++ [(userId, [])]) userId task)
  end.

Definition tasksByUser (tasks : list Task.t)
  : option (list (string * list Task.t)) :=
  foldl (λ acc task, acc ≫= λ a, group_by_user a task) (Some []) tasks.

(** The tasks of one user, in the order of the task list. *)
Definition user_tasks (userId : string) (tasks : list Task.t) : list Task.t :=
  filter (λ t, Task.assigned_user_id t = userId) tasks.

(** What the reduction builds: under every key the tasks of that user,
    and a key for every user seen. *)
Definition grouped_by_user (tasks : list Task.t)
    (obj : list (string * list Task.t)) : Prop :=
  (∀ userId ts, (userId, ts) ∈ obj → ts = user_tasks userId tasks) ∧
  (∀ task, task ∈ tasks → Task.assigned_user_id task ∈ obj.*1).

(** *** The order of [Object.entries] *)

Definition digit (c : Ascii.ascii) : option N :=
  let n := Ascii.N_of_ascii c in
  if (48 <=? n)%N && (n <=? 57)%N then Some (n - 48)%N else None.

Fixpoint digits (s : string) (acc : N) : option N :=
  match s with
  | EmptyString => Some acc
  | String c s' => d ← digit c; digits s' (10 * acc + d)%N
  end.

(** The array index a property name denotes, if any: a decimal numeral
    without leading zero, below [2^32 - 1]. *)
Definition array_index (s : string) : option N :=
  match s with
  | EmptyString => None
  | String "0"%char EmptyString => Some 0%N
  | String "0"%char _ => None
  | _ => n ← digits s 0; if (n <? 4294967295)%N then Some n else None
  end.

(** Stable insertion sort along a comparator, the behaviour of
    [Array.prototype.sort] on a comparator that is a consistent order:
    [x] is put before the first element it does not have to follow. *)
Section sort.
Context {A : Type} (compareFn : A → A → Q).

Fixpoint insert_sorted (x : A) (l : list A) : list A :=
  match l with
  | [] => [x]
  | y :: l' =>
      if Qle_bool (compareFn x y) 0 then x :: l
      else y :: insert_sorted x l'
  end.

Definition Array_sort (l : list A) : list A := foldr insert_sorted [] l.
End sort.

(** Index-like keys come first, in ascending numeric order, then the
    other keys in insertion order. *)
Definition Object_entries (obj : list (string * list Task.t))
  : list (string * list Task.t) :=
  let indexed :=
    omap (λ e, i ← array_index e.1; Some (i, e)) obj in
  let named :=
    List.filter (λ e, bool_decide (array_index e.1 = None)) obj in
  (snd <$> Array_sort (λ a b, inject_Z (Z.of_N a.1) - inject_Z (Z.of_N b.1)) indexed)
  ++ named.

(** *** The metrics of one employee *)

Section Clock.
(** [new Date(s).getTime()], [None] for an invalid date. *)
Variable getTime : string → option Z.
(** The reading of the clock, [new Date()], taken to be the same for
    every task of one call. *)
Variable now : Z.

Definition has_status (s : string) (task : Task.t) : bool :=
  String.eqb (Task.status task) s.

(** [userTasks.filter(p).length] *)
Definition count (p : Task.t → bool) (userTasks : list Task.t) : Z :=
  Z.of_nat (length (List.filter p userTasks)).

(** The callback of the [overdueTasks] filter. *)
Definition is_overdue (task : Task.t) : bool :=
  if has_status "completed" task then
    truthy (Task.finish_time task)
    && time_gt (Task.finish_time task ≫= getTime) (getTime (Task.deadline task))
  else
    time_lt (getTime (Task.deadline task)) (Some now)
    && negb (has_status "completed" task).

(** The callback of the [tasksCompletedOnTime] filter. *)
Definition is_completed_on_time (task : Task.t) : bool :=
  has_status "completed" task
  && truthy (Task.finish_time task)
  && time_le (Task.finish_time task ≫= getTime) (getTime (Task.deadline task)).

(** The body of the [forEach] that sums the completion times: the
    running total in hours ([None] once a [NaN] entered it) and the
    number of tasks counted. *)
Definition add_completion_time (acc : option Q * Z) (task : Task.t)
  : option Q * Z :=
  let '(totalCompletionTime, completionTimeCount) := acc in
  if truthy (Task.start_time task) && truthy (Task.finish_time task) then
    let startTime := Task.start_time task ≫= getTime in
    let finishTime := Task.finish_time task ≫= getTime in
    let durationHours :=
      match finishTime, startTime with
      | Some f, Some s => Some (inject_Z (f - s) / inject_Z (1000 * 60 * 60))
      | _, _ => None
      end in
    (match totalCompletionTime, durationHours with
     | Some t, Some d => Some (t + d)
     | _, _ => None
     end,
     (completionTimeCount + 1)%Z)
  else acc.

Definition avgCompletionTime_of (userTasks : list Task.t) : option Q :=
  let '(totalCompletionTime, completionTimeCount) :=
    foldl add_completion_time (Some 0, 0%Z) userTasks in
  if (0 <? completionTimeCount)%Z
  then (λ t, t / inject_Z completionTimeCount) <$> totalCompletionTime
  else Some 0.

Definition timeEfficiency_of (avgCompletionTime : option Q) : Q :=
  match avgCompletionTime with
  | Some a => if Qlt_bool 0 a then Math_max 0 (100 - a * 5) else 100
  | None => 100
  end.

Definition rating_of (score : Q) : Rating :=
  if Qle_bool 85 score then excellent
  else if Qle_bool 70 score then good
  else if Qle_bool 50 score then average
  else needs_improvement.

(** The body of the loop over the entries, for a user with a profile. *)
Definition employee (userId : string) (userTasks : list Task.t)
    (profile : Profile.t) : EmployeePerformance.t :=
  let totalTasks := Z.of_nat (length userTasks) in
  let completedTasks := count (has_status "completed") userTasks in
  let inProgressTasks := count (has_status "in_progress") userTasks in
  let todoTasks := count (has_status "todo") userTasks in
  let reviewTasks :=
    count (λ task, has_status "in_review" task || has_status "done" task)
      userTasks in
  let cancelledTasks :=
    (totalTasks - (completedTasks + inProgressTasks + todoTasks + reviewTasks))%Z in
  let overdueTasks := count is_overdue userTasks in
  let tasksCompletedOnTime := count is_completed_on_time userTasks in
  let efficiency :=
    if (0 <? totalTasks)%Z
    then inject_Z tasksCompletedOnTime / inject_Z totalTasks * 100 else 0 in
  let completionRate :=
    if (0 <? totalTasks)%Z
    then inject_Z completedTasks / inject_Z totalTasks * 100 else 0 in
  let punctualityRate :=
    if (0 <? completedTasks)%Z
    then inject_Z tasksCompletedOnTime / inject_Z completedTasks * 100 else 0 in
  let avgCompletionTime := avgCompletionTime_of userTasks in
  let score := 0 in
  let score := score + completionRate * 0.3 in
  let score := score + punctualityRate * 0.25 in
  let score := score + efficiency * 0.2 in
  let timeEfficiency := timeEfficiency_of avgCompletionTime in
  let score := score + timeEfficiency * 0.15 in
  let cancellationRate :=
    if (0 <? totalTasks)%Z
    then inject_Z (or_zero cancelledTasks) / inject_Z totalTasks * 100 else 0 in
  let cancellationScore := 100 - cancellationRate in
  let score := score + Math_max 0 cancellationScore * 0.1 in
  let performanceRating := rating_of score in
  {| id := userId;
     name :=
       if truthy (Profile.full_name profile)
       then default "" (Profile.full_name profile)
       else if truthy (Some (Profile.email profile)) then Profile.email profile
       else "Unknown User"%string;
     avatar_url := Profile.avatar_url profile;
     totalTasks := totalTasks;
     completedTasks := completedTasks;
     overdueTasks := overdueTasks;
     cancelledTasks := or_zero cancelledTasks;
     efficiency := toFixed1 efficiency;
     avgCompletionTime := toFixed1 <$> avgCompletionTime;
     completionRate := toFixed1 completionRate;
     punctualityRate := toFixed1 punctualityRate;
     performanceScore := toFixed1 score;
     performanceRating := performanceRating |}.

(** [performanceData] as the loop leaves it: users without a profile
    are skipped. *)
Definition performanceData (entries : list (string * list Task.t))
    (profiles : list Profile.t) : list EmployeePerformance.t :=
  omap (λ e,
          profile ← snd <$> list_find (λ p, Profile.id p = e.1) profiles;
          Some (employee e.1 e.2 profile))
       entries.

Definition by_score (a b : EmployeePerformance.t) : Q :=
  performanceScore b - performanceScore a.

Definition calculateEmployeePerformance (tasks : list Task.t)
    (profiles : list Profile.t) : option (list EmployeePerformance.t) :=
  obj ← tasksByUser tasks;
  Some (Array_sort by_score (performanceData (Object_entries obj) profiles)).
End Clock.
End Performance.

(** ** JavaScript numbers *)

(** A [Number] is a binary64 value of IEEE 754, here a primitive
    [float]; its operations round to nearest, ties to even, as those of
    the language do. *)
Module Double.
Import PrimFloat SpecFloat FloatOps.
Local Open Scope float_scope.

(** The Number value of an integer: exact below [2^53] in magnitude,
    which covers every array length and every time value; correctly
    rounded below [2^63]. *)
Definition of_Z (z : Z) : float :=
  if (z <? 0)%Z then - of_uint63 (Uint63.of_Z (- z))
  else of_uint63 (Uint63.of_Z z).

(** [Math.max(a, b)]: [NaN] if either is, and [+0] is larger than [-0]. *)
Definition Math_max (a b : float) : float :=
  if is_nan a || is_nan b then nan
  else if a <? b then b
  else if b <? a then a
  else if get_sign a then b else a.

(** [parseFloat] of the decimal numeral [n / 10], for an integer
    [n >= 0]: the binary64 value nearest to it. *)
Definition parseFloat_tenths (n : Z) : float :=
  match n with
  | Zpos p =>
      SF2Prim (SFdiv prec emax (S754_finite false p 0) (S754_finite false 10 0))
  | _ => 0
  end.

(** [parseFloat(x.toFixed(1))].  [toFixed] prints [NaN] and the infinities
    by name and a number of magnitude [1e21] or more as [ToString] does, all
    of which [parseFloat] reads back; otherwise, with [n] the integer for
    which [n / 10] is nearest to the exact magnitude of [x] (the larger on a
    tie), it prints [n / 10] in decimal, with the sign of [x] when [x < 0]. *)
Definition toFixed1 (x : float) : float :=
  match Prim2SF x with
  | S754_nan | S754_infinity _ => x
  | S754_zero _ => 0
  | S754_finite s m e =>
      if 1e21 <=? abs x then x
      else
        let n :=
          if (0 <=? e)%Z then (10 * Z.shiftl (Zpos m) e)%Z
          else Z.shiftr (20 * Zpos m + Z.shiftl 1 (- e)) (1 - e) in
        if s then - parseFloat_tenths n else parseFloat_tenths n
  end.

(** [x] is [NaN] or has its sign bit clear. *)
Definition nonneg (x : float) : Prop :=
  match Prim2SF x with
  | S754_zero s | S754_infinity s | S754_finite s _ _ => s = false
  | S754_nan => True
  end.
End Double.

(** ** src/lib/performance.ts in double precision *)

Module Performance64.
Import PrimFloat.
Import EmployeePerformance(Rating, excellent, good, average, needs_improvement).
Import Performance(has_status, count, time_lt, time_gt, time_le,
                   is_completed_on_time, or_zero, tasksByUser, Object_entries,
                   user_tasks).
Local Open Scope float_scope.

Record t := mk {
  id : string;
  name : string;
  avatar_url : option string;
  totalTasks : Z;
  completedTasks : Z;
  overdueTasks : Z;
  cancelledTasks : Z;
  efficiency : float;
  avgCompletionTime : float;
  completionRate : float;
  punctualityRate : float;
  performanceScore : float;
  performanceRating : Rating
}.

(** The record [r] with another count of overdue tasks. *)
Definition with_overdueTasks (r : t) (n : Z) : t :=
  {| id := id r;
     name := name r;
     avatar_url := avatar_url r;
     totalTasks := totalTasks r;
     completedTasks := completedTasks r;
     overdueTasks := n;
     cancelledTasks := cancelledTasks r;
     efficiency := efficiency r;
     avgCompletionTime := avgCompletionTime r;
     completionRate := completionRate r;
     punctualityRate := punctualityRate r;
     performanceScore := performanceScore r;
     performanceRating := performanceRating r |}.

(** [Array.prototype.sort] along a comparator that returns a Number:
    the stable insertion sort of [Performance.Array_sort]; a comparator
    value of [NaN] counts as [+0]. *)
Section sort.
Context {A : Type} (compareFn : A → A → float).

Fixpoint insert_sorted (x : A) (l : list A) : list A :=
  match l with
  | [] => [x]
  | y :: l' =>
      if negb (0 <? compareFn x y) then x :: l
      else y :: insert_sorted x l'
  end.

Definition Array_sort (l : list A) : list A := foldr insert_sorted [] l.
End sort.

Section Clock.
(** [new Date(s).getTime()], [None] for an invalid date. *)
Variable getTime : string → option Z.
(** The readings of the clock: [clock n] is the value of the [n]-th
    [new Date()] evaluated during the call, counting from 0. *)
Variable clock : nat → Z.

(** The time value of a date string as a Number, [NaN] for an invalid
    date. *)
Definition time_value (s : option string) : float :=
  match s ≫= getTime with
  | Some t => Double.of_Z t
  | None => nan
  end.

(** The callback of the [overdueTasks] filter, with the number of clock
    readings taken before and after it: the clock is read once for every
    task that is not completed. *)
Definition is_overdue (reads : nat) (task : Task.t) : bool * nat :=
  if has_status "completed" task then
    (truthy (Task.finish_time task)
     && time_gt (Task.finish_time task ≫= getTime) (getTime (Task.deadline task)),
     reads)
  else
    (time_lt (getTime (Task.deadline task)) (Some (clock reads))
     && negb (has_status "completed" task),
     S reads).

(** One call of the callback by [filter]: the number of tasks kept so
    far and the number of clock readings taken. *)
Definition overdue_step (acc : Z * nat) (task : Task.t) : Z * nat :=
  let '(n, reads) := acc in
  let '(overdue, reads) := is_overdue reads task in
  (if overdue then (n + 1)%Z else n, reads).

(** [userTasks.filter(is_overdue).length] *)
Definition overdueTasks_of (reads : nat) (userTasks : list Task.t) : Z * nat :=
  foldl overdue_step (0%Z, reads) userTasks.

(** The body of the [forEach] that sums the completion times. *)
Definition add_completion_time (acc : float * Z) (task : Task.t) : float * Z :=
  let '(totalCompletionTime, completionTimeCount) := acc in
  if truthy (Task.start_time task) && truthy (Task.finish_time task) then
    let startTime := time_value (Task.start_time task) in
    let finishTime := time_value (Task.finish_time task) in
    let durationHours := (finishTime - startTime) / Double.of_Z (1000 * 60 * 60) in
    (totalCompletionTime + durationHours, (completionTimeCount + 1)%Z)
  else acc.

Definition avgCompletionTime_of (userTasks : list Task.t) : float :=
  let '(totalCompletionTime, completionTimeCount) :=
    foldl add_completion_time (0, 0%Z) userTasks in
  if (0 <? completionTimeCount)%Z
  then totalCompletionTime / Double.of_Z completionTimeCount
  else 0.

Definition timeEfficiency_of (avgCompletionTime : float) : float :=
  if 0 <? avgCompletionTime
  then Double.Math_max 0 (100 - avgCompletionTime * 5) else 100.

Definition rating_of (score : float) : Rating :=
  if 85 <=? score then excellent
  else if 70 <=? score then good
  else if 50 <=? score then average
  else needs_improvement.

(** The body of the loop over the entries, for a user with a profile,
    with the number of clock readings taken before and after it. *)
Definition employee (reads : nat) (userId : string) (userTasks : list Task.t)
    (profile : Profile.t) : t * nat :=
  let totalTasks := Z.of_nat (length userTasks) in
  let completedTasks := count (has_status "completed") userTasks in
  let inProgressTasks := count (has_status "in_progress") userTasks in
  let todoTasks := count (has_status "todo") userTasks in
  let reviewTasks :=
    count (λ task, has_status "in_review" task || has_status "done" task)
      userTasks in
  let cancelledTasks :=
    (totalTasks - (completedTasks + inProgressTasks + todoTasks + reviewTasks))%Z in
  let '(overdueTasks, reads) := overdueTasks_of reads userTasks in
  let tasksCompletedOnTime := count (is_completed_on_time getTime) userTasks in
  let efficiency :=
    if (0 <? totalTasks)%Z
    then Double.of_Z tasksCompletedOnTime / Double.of_Z totalTasks * 100 else 0 in
  let completionRate :=
    if (0 <? totalTasks)%Z
    then Double.of_Z completedTasks / Double.of_Z totalTasks * 100 else 0 in
  let punctualityRate :=
    if (0 <? completedTasks)%Z
    then Double.of_Z tasksCompletedOnTime / Double.of_Z completedTasks * 100
    else 0 in
  let avgCompletionTime := avgCompletionTime_of userTasks in
  let score := 0 in
  let score := score + completionRate * 0.3 in
  let score := score + punctualityRate * 0.25 in
  let score := score + efficiency * 0.2 in
  let timeEfficiency := timeEfficiency_of avgCompletionTime in
  let score := score + timeEfficiency * 0.15 in
  let cancellationRate :=
    if (0 <? totalTasks)%Z
    then Double.of_Z (or_zero cancelledTasks) / Double.of_Z totalTasks * 100
    else 0 in
  let cancellationScore := 100 - cancellationRate in
  let score := score + Double.Math_max 0 cancellationScore * 0.1 in
  let performanceRating := rating_of score in
  ({| id := userId;
      name :=
        if truthy (Profile.full_name profile)
        then default "" (Profile.full_name profile)
        else if truthy (Some (Profile.email profile)) then Profile.email profile
        else "Unknown User"%string;
      avatar_url := Profile.avatar_url profile;
      totalTasks := totalTasks;
      completedTasks := completedTasks;
      overdueTasks := overdueTasks;
      cancelledTasks := or_zero cancelledTasks;
      efficiency := Double.toFixed1 efficiency;
      avgCompletionTime := Double.toFixed1 avgCompletionTime;
      completionRate := Double.toFixed1 completionRate;
      punctualityRate := Double.toFixed1 punctualityRate;
      performanceScore := Double.toFixed1 score;
      performanceRating := performanceRating |},
   reads).

(** One turn of the loop over the entries: a user without a profile is
    skipped before the clock is read. *)
Definition loop_body (profiles : list Profile.t) (acc : list t * nat)
    (e : string * list Task.t) : list t * nat :=
  let '(performanceData, reads) := acc in
  match snd <$> list_find (λ p, Profile.id p = e.1) profiles with
  | Some profile =>
      let '(r, reads) := employee reads e.1 e.2 profile in
      (performanceData ++ [r], reads)
  | None => acc
  end.

(** [performanceData] as the loop leaves it. *)
Definition performanceData (entries : list (string * list Task.t))
    (profiles : list Profile.t) : list t :=
  fst (foldl (loop_body profiles) ([], 0%nat) entries).

(** *** The formula of the specification *)

(** [part / whole * 100], or 0 when [whole] is 0. *)
Definition percentage (part whole : Z) : float :=
  if (0 <? whole)%Z then Double.of_Z part / Double.of_Z whole * 100 else 0.

Definition composite_score
    (completionRate punctualityRate efficiency avgCompletionTime
       cancellationRate : float) : float :=
  let timeEfficiency :=
    if 0 <? avgCompletionTime
    then Double.Math_max 0 (100 - avgCompletionTime * 5) else 100 in
  0.30 * completionRate + 0.25 * punctualityRate + 0.20 * efficiency
  + 0.15 * timeEfficiency + 0.10 * Double.Math_max 0 (100 - cancellationRate).

Definition by_score (a b : t) : float := performanceScore b - performanceScore a.

Definition calculateEmployeePerformance (tasks : list Task.t)
    (profiles : list Profile.t) : option (list t) :=
  obj ← tasksByUser tasks;
  Some (Array_sort by_score (performanceData (Object_entries obj) profiles)).
End Clock.
End Performance64.

(** ** Sample data *)

Module Samples.
Import Performance.

(** Tasks for the board. *)
Definition legacy_task : Task.t :=
  Task.mk "7c0e" "u1" "done" None None "2025-03-01T00:00:00.000Z" false.

Definition open_task : Task.t :=
  Task.mk "41aa" "u1" "todo" None None "2025-03-01T00:00:00.000Z" false.

(** Two tasks to do, under ids as the database generates them. *)
Definition first_card : Task.t :=
  Task.mk "3f2b8c1e-5d47-4a90-b6e3-9c1d7a2f4e05" "u1" "todo" None None
    "2025-03-02T00:00:00.000Z" false.

Definition second_card : Task.t :=
  Task.mk "a81d04c7-2e6f-4b3a-9f58-0c7e5d1b6a92" "u1" "todo" None None
    "2025-03-02T00:00:00.000Z" false.

(** A finished task whose id happens to be a column id. *)
Definition clashing_task : Task.t :=
  Task.mk "todo" "u1" "completed" None
    (Some "2025-02-01T00:00:00.000Z") "2025-03-01T00:00:00.000Z" false.

(** The time values of the ISO 8601 date strings used below; any other
    string counts as an invalid date. *)
Definition iso_times : list (string * Z) :=
  [ ("2025-02-01T00:00:00.000Z", 1738368000000%Z);
    ("2025-03-01T08:00:00.000Z", 1740816000000%Z);
    ("2025-03-01T10:00:00.000Z", 1740823200000%Z);
    ("2025-03-01T12:00:00.000Z", 1740830400000%Z);
    ("2025-03-01T14:42:00.000Z", 1740840120000%Z);
    ("2025-03-02T00:00:00.000Z", 1740873600000%Z) ].

Definition getTime (s : string) : option Z :=
  (λ found, found.2.2) <$> list_find (λ e, e.1 = s) iso_times.

(** 2025-03-01T00:00:00.000Z and 2025-03-03T00:00:00.000Z. *)
Definition march_1 : Z := 1740787200000.
Definition march_3 : Z := 1740960000000.

Definition ana : Profile.t :=
  Profile.mk "u1" "ana@example.com" (Some "Ana") None.
Definition ben : Profile.t :=
  Profile.mk "u2" "ben@example.com" None None.

(** Started at 08:00, finished at 14:42, due at 12:00: late, after 6.7
    hours of work. *)
Definition late_task : Task.t :=
  Task.mk "t1" "u1" "completed"
    (Some "2025-03-01T08:00:00.000Z") (Some "2025-03-01T14:42:00.000Z")
    "2025-03-01T12:00:00.000Z" false.

(** Open, due on 2025-03-02. *)
Definition pending_task : Task.t :=
  Task.mk "t2" "u1" "todo" None None "2025-03-02T00:00:00.000Z" false.

(** Completed, with no finish time recorded. *)
Definition unstamped_task : Task.t :=
  Task.mk "t3" "u2" "completed" (Some "2025-03-01T08:00:00.000Z") None
    "2025-03-02T00:00:00.000Z" false.

(** Finished at 10:00, due at 12:00. *)
Definition timely_task : Task.t :=
  Task.mk "t4" "u2" "completed"
    (Some "2025-03-01T08:00:00.000Z") (Some "2025-03-01T10:00:00.000Z")
    "2025-03-01T12:00:00.000Z" false.

(** A status the application does not know. *)
Definition archived_task : Task.t :=
  Task.mk "t5" "u1" "archived" None None "2025-03-02T00:00:00.000Z" false.

Definition team : list Profile.t := [ana; ben].

Definition backlog : list Task.t :=
  [late_task; pending_task; timely_task; archived_task].

Definition backlog_report : list EmployeePerformance.t :=
  Eval vm_compute in
    default [] (calculateEmployeePerformance getTime march_3 backlog team).

Definition late_report : list EmployeePerformance.t :=
  Eval vm_compute in
    default [] (calculateEmployeePerformance getTime march_3 [late_task] team).

Definition unstamped_report : list EmployeePerformance.t :=
  Eval vm_compute in
    default [] (calculateEmployeePerformance getTime march_3 [unstamped_task] team).
End Samples.

(** Sample data for the report in double precision. *)
Module Samples64.
Import Samples Performance64.

(** The time values of [Samples.iso_times] and of two more instants of
    1 March 2025. *)
Definition iso_times : list (string * Z) :=
  Samples.iso_times
  ++ [ ("2025-03-01T08:04:00.000Z", 1740816240000%Z);
       ("2025-03-01T22:26:40.000Z", 1740868000000%Z) ].

Definition getTime (s : string) : option Z :=
  (λ found, found.2.2) <$> list_find (λ e, e.1 = s) iso_times.

(** Clocks that stand still on 1 March and on 3 March 2025. *)
Definition on_march_1 : nat → Z := λ _, march_1.
Definition on_march_3 : nat → Z := λ _, march_3.

(** In review after four minutes of work. *)
Definition quick_task : Task.t :=
  Task.mk "t7" "u1" "in_review"
    (Some "2025-03-01T08:00:00.000Z") (Some "2025-03-01T08:04:00.000Z")
    "2025-03-02T00:00:00.000Z" false.

(** Four tasks of one user: three completed, one of them on time after
    52000000 ms of work, the two others late with no start time; and one
    to do. *)
Definition mixed_tasks : list Task.t :=
  [ Task.mk "t8" "u1" "completed"
      (Some "2025-03-01T08:00:00.000Z") (Some "2025-03-01T22:26:40.000Z")
      "2025-03-02T00:00:00.000Z" false;
    Task.mk "t9" "u1" "completed" None (Some "2025-03-01T14:42:00.000Z")
      "2025-03-01T12:00:00.000Z" false;
    Task.mk "t10" "u1" "completed" None (Some "2025-03-01T14:42:00.000Z")
      "2025-03-01T12:00:00.000Z" false;
    pending_task ].

Definition late_report : list Performance64.t :=
  Eval vm_compute in
    default [] (calculateEmployeePerformance getTime on_march_3 [late_task] team).

Definition backlog_report : list Performance64.t :=
  Eval vm_compute in
    default [] (calculateEmployeePerformance getTime on_march_3 backlog team).
End Samples64.

(** ** src/components/TaskCard.tsx: the status button *)

Module TaskCard.

(** The object [statusFlow] of [getNextStatus]; a value [None] is [null]. *)
Definition statusFlow (isAdmin : bool) : gmap string (option string) :=
  <["todo" := Some "in_progress"]>
    (<["in_progress" := Some "in_review"]>
      (<["in_review" := if isAdmin then Some "completed" else None]>
        (<["done" := None]> (<["completed" := None]> ∅)))).

(** What [statusFlow[currentStatus]] evaluates to. *)
Inductive next_status :=
| Next (status : string)
| Null
| Inherited      (* a member of [Object.prototype]: truthy, not a string *)
| Undefined.

Definition getNextStatus (isAdmin : bool) (currentStatus : string) : next_status :=
  match statusFlow isAdmin !! currentStatus with
  | Some (Some status) => Next status
  | Some None => Null
  | None =>
      if bool_decide (currentStatus ∈ Object_prototype_keys) then Inherited
      else Undefined
  end.

(** [s.replace('_', ' ')]: the first underscore becomes a blank. *)
Fixpoint replace_underscore (s : string) : string :=
  match s with
  | EmptyString => EmptyString
  | String c s' =>
      if Ascii.eqb c "_" then String " " s' else String c (replace_underscore s')
  end.

(** [None] is the [TypeError] of calling [replace] on a value that has
    none. *)
Definition getStatusButtonText (nextStatus : next_status) : option string :=
  match nextStatus with
  | Null | Undefined => Some ""
  | Inherited => None
  | Next status =>
      if negb (truthy (Some status)) then Some ""
      else if String.eqb status "in_progress" then Some "Start Working"
      else if String.eqb status "in_review" then Some "Ready for Review"
      else if String.eqb status "completed" then Some "Mark as Completed"
      else Some ("Move to " ++ replace_underscore status)%string
  end.

(** Truthiness of [nextStatus]. *)
Definition offers (nextStatus : next_status) : bool :=
  match nextStatus with
  | Next status => truthy (Some status)
  | Inherited => true
  | Null | Undefined => false
  end.

(** The call [onStatusChange(task.id, nextStatus)] behind the user's
    status button, when the card shows the button: it does for a user who
    is no admin, on a task that is not pending approval, when
    [nextStatus] is truthy. *)
Definition user_button (isAdmin : bool) (task : Task.t) : option (string * string) :=
  match getNextStatus isAdmin (Task.status task) with
  | Next status =>
      if negb isAdmin && truthy (Some status) && negb (Task.pending_approval task)
      then Some (Task.id task, status) else None
  | _ => None
  end.

End TaskCard.

(** ** The pages that call the two cores *)

(** The payload of a task update: a key that is absent is [None], a key
    set to [null] is [Some None]. *)
Module Updates.
Record t := mk {
  status : string;
  start_time : option (option string);
  finish_time : option (option string);
  pending_approval : option bool
}.

Definition set_start_time (u : t) (v : option string) : t :=
  {| status := status u; start_time := Some v;
     finish_time := finish_time u; pending_approval := pending_approval u |}.
Definition set_finish_time (u : t) (v : option string) : t :=
  {| status := status u; start_time := start_time u;
     finish_time := Some v; pending_approval := pending_approval u |}.
Definition set_pending_approval (u : t) (v : bool) : t :=
  {| status := status u; start_time := start_time u;
     finish_time := finish_time u; pending_approval := Some v |}.

(** The value a nullable column has once the update is applied. *)
Definition after (update : option (option string)) (before : option string)
  : option string :=
  default before update.
End Updates.

(** The user's page ("My Tasks"), which renders the board with
    [isAdmin = false] and [handleStatusChange] as [onStatusChange]. *)
Module UserDashboard.
Section Clock.
(** [new Date().toISOString()], taken to be the same at every place of
    one call. *)
Variable now_iso : string.
(** [isSameDay(new Date(finish_time), new Date())] *)
Variable finished_today : string → bool.

(** The [updates] object [handleStatusChange] sends, or [None] when it
    returns early because the task is not among [tasks]. *)
Definition handleStatusChange (tasks : list Task.t) (taskId status : string)
  : option Updates.t :=
  match KanbanBoard.find_task tasks taskId with
  | None => None
  | Some task =>
      let updates := Updates.mk status None None None in
      let updates :=
        if String.eqb (Task.status task) "completed"
           && negb (String.eqb status "completed")
        then Updates.set_finish_time updates None else updates in
      let updates :=
        if String.eqb status "in_progress" && negb (truthy (Task.start_time task))
        then Updates.set_start_time updates (Some now_iso) else updates in
      let updates :=
        if String.eqb (Task.status task) "in_progress" && String.eqb status "todo"
        then Updates.set_start_time updates None else updates in
      let updates :=
        if String.eqb status "in_review" && negb (truthy (Task.finish_time task))
        then Updates.set_finish_time updates (Some now_iso) else updates in
      let updates :=
        if String.eqb status "completed" then
          let updates := Updates.set_pending_approval updates false in
          if negb (truthy (Task.finish_time task))
          then Updates.set_finish_time updates (Some now_iso) else updates
        else updates in
      let updates :=
        if Task.pending_approval task && negb (String.eqb status "completed")
        then Updates.set_pending_approval updates false else updates in
      Some updates
  end.

(** The tasks handed to the board: everything but the tasks completed on
    an earlier day. *)
Definition filteredTasks (tasks : list Task.t) : list Task.t :=
  List.filter
    (λ task,
       if negb (String.eqb (Task.status task) "completed")
          || negb (truthy (Task.finish_time task))
       then true
       else finished_today (default "" (Task.finish_time task)))
    tasks.
End Clock.
End UserDashboard.

(** The admin's task page, whose cards call this [handleStatusChange]. *)
Module AdminTasks.
Section Clock.
Variable now_iso : string.

Definition handleStatusChange (status : string) : Updates.t :=
  let updates := Updates.mk status None None None in
  if String.eqb status "completed" then
    Updates.set_finish_time (Updates.set_pending_approval updates false)
      (Some now_iso)
  else updates.
End Clock.
End AdminTasks.

(** The admin's dashboard, which shows the report next to a table of team
    members computed from the same task list. *)
Module AdminDashboard.
Import Performance.

(** An entry of [enrichedProfiles], without the columns [is_approved] and
    [created_at] that it copies from the profile. *)
Record TeamMember := mkTeamMember {
  id : string;
  name : string;
  email : string;
  avatar_url : option string;
  totalTasks : Z;
  completedTasks : Z;
  overdueTasks : Z
}.

Section Clock.
Variable getTime : string → option Z.
Variable now : Z.

Definition enrich (tasksWithProfiles : list Task.t) (profile : Profile.t)
  : TeamMember :=
  let userTasks :=
    List.filter
      (λ task, String.eqb (Task.assigned_user_id task) (Profile.id profile))
      tasksWithProfiles in
  let totalTasks := Z.of_nat (length userTasks) in
  let completedTasks := count (has_status "completed") userTasks in
  let overdueTasks := count (is_overdue getTime now) userTasks in
  {| id := Profile.id profile;
     name :=
       if truthy (Profile.full_name profile)
       then default "" (Profile.full_name profile)
       else if truthy (Some (Profile.email profile)) then Profile.email profile
       else "Unknown User";
     email := Profile.email profile;
     avatar_url := Profile.avatar_url profile;
     totalTasks := totalTasks;
     completedTasks := completedTasks;
     overdueTasks := overdueTasks |}.

Definition enrichedProfiles (tasksWithProfiles : list Task.t)
    (profilesData : list Profile.t) : list TeamMember :=
  enrich tasksWithProfiles <$> profilesData.
End Clock.
End AdminDashboard.

(** A reading of the clock for the user's page, and a task waiting for
    an approval. *)
Module PageSamples.
(** 2025-03-03T09:00:00.000Z *)
Definition now_iso : string := "2025-03-03T09:00:00.000Z".

(** [isSameDay] on that day, for dates written in UTC. *)
Definition finished_today (finish_time : string) : bool :=
  String.prefix "2025-03-03" finish_time.

Definition started_task : Task.t :=
  Task.mk "t6" "u1" "in_progress" (Some "2025-03-01T08:00:00.000Z") None
    "2025-03-02T00:00:00.000Z" false.

(** Tasks of a user's page: one finished a month ago, one to do, one in
    progress. *)
Definition my_tasks : list Task.t :=
  [ Task.mk "t0" "u1" "completed" None (Some "2025-02-01T00:00:00.000Z")
      "2025-03-01T00:00:00.000Z" false;
    Samples.open_task; started_task ].
End PageSamples.

(** ** Relations used to describe the board *)

Module KanbanBoardShape.
(** Position by position, a task of the local copy is the task of
    [tasks], possibly with its status replaced by one that satisfies
    [P]. *)
Definition in_step_with (P : string → Prop) (tasks local : list Task.t) : Prop :=
  Forall2 (λ t t0, t = t0 ∨ ∃ s, P s ∧ t = Task.with_status t0 s) local tasks.
End KanbanBoardShape.

(** * Properties of the kanban board *)

Module KanbanBoardFacts.
Import KanbanBoard.

(** *** Grouping *)

Lemma group_from_cons g task l :
  group_from g (task :: l) = group_task g task ≫= λ g', group_from g' l.
Proof.
  unfold group_from. simpl. destruct (group_task g task) as [g'|]; simpl; [done|].
  induction l as [|x l IH]; simpl; [done|]. exact IH.
Qed.

(** As long as [grouped] has exactly its five own keys, an iteration
    either appends the task to the bucket named by its status, or leaves
    [grouped] alone (a status that names nothing), or throws. *)
Lemma group_task_own g task g' :
  (∀ k, is_Some (g !! k) ↔ k ∈ own_keys) →
  group_task g task = Some g' →
  (∀ k, is_Some (g' !! k) ↔ k ∈ own_keys) ∧
  ∀ k, k ∈ own_keys →
       default [] (g' !! k)
       = default [] (g !! k) ++ filter (λ t, Task.status t = k) [task].
Proof.
  intros Hdom. unfold group_task, push, get.
  destruct (g !! Task.status task) as [l|] eqn:Hl.
  - intros [= <-]. split.
    + intros k. rewrite lookup_insert_is_Some'. rewrite Hdom.
      split; [intros [<-|?]; [apply Hdom; eauto|done]|auto].
    + intros k Hk. destruct (decide (Task.status task = k)) as [<-|Hne].
      * rewrite lookup_insert_eq, Hl, filter_cons_True by done. done.
      * rewrite lookup_insert_ne, filter_cons_False by done.
        by rewrite filter_nil, app_nil_r.
  - case_bool_decide as Hproto; [done|].
    case_bool_decide as Hdone.
    { exfalso. assert (is_Some (g !! Task.status task)) as [? ?]; [|congruence].
      apply Hdom. rewrite Hdone. unfold own_keys. set_unfold. tauto. }
    intros [= <-]. split; [done|]. intros k Hk.
    rewrite filter_cons_False, filter_nil, app_nil_r; [done|].
    intros <-. apply Hdom in Hk as [? ?]. congruence.
Qed.

Lemma group_from_own l : ∀ g g',
  (∀ k, is_Some (g !! k) ↔ k ∈ own_keys) →
  group_from g l = Some g' →
  (∀ k, is_Some (g' !! k) ↔ k ∈ own_keys) ∧
  ∀ k, k ∈ own_keys →
       default [] (g' !! k)
       = default [] (g !! k) ++ filter (λ t, Task.status t = k) l.
Proof.
  induction l as [|task l IH]; intros g g' Hdom.
  - intros [= <-]. split; [done|]. intros. by rewrite filter_nil, app_nil_r.
  - rewrite group_from_cons. destruct (group_task g task) as [g1|] eqn:H1; [|done].
    simpl. intros Hrest.
    destruct (group_task_own _ _ _ Hdom H1) as [Hdom1 Hone].
    destruct (IH _ _ Hdom1 Hrest) as [Hdom' Hall]. split; [done|].
    intros k Hk. rewrite (Hall k Hk), (Hone k Hk), <- app_assoc.
    f_equal. rewrite (filter_cons _ task l).
    destruct (decide (Task.status task = k)).
    + by rewrite filter_cons_True.
    + by rewrite filter_cons_False.
Qed.

Lemma grouped_init_own k : is_Some (grouped_init !! k) ↔ k ∈ own_keys.
Proof.
  unfold grouped_init, own_keys.
  rewrite !lookup_insert_is_Some', lookup_empty, is_Some_alt.
  set_unfold. intuition congruence.
Qed.

(** Every bucket of the result is the sub-list of the tasks with that
    status, in their order. *)
Lemma tasksByStatus_bucket localTasks grouped k :
  tasksByStatus localTasks = Some grouped →
  grouped !! k =
    if bool_decide (k ∈ own_keys)
    then Some (filter (λ t, Task.status t = k) localTasks) else None.
Proof.
  intros H. destruct (group_from_own _ _ _ grouped_init_own H) as [Hdom Hall].
  case_bool_decide as Hk.
  - pose proof (proj2 (Hdom k) Hk) as [l Hl]. specialize (Hall k Hk).
    rewrite Hl in Hall. simpl in Hall. rewrite Hl, Hall. f_equal.
    pose proof (proj2 (grouped_init_own k) Hk) as [l0 Hl0].
    rewrite Hl0. simpl.
    assert (l0 = []) as ->; [|done].
    revert Hl0. unfold grouped_init.
    rewrite !lookup_insert_Some, lookup_empty. intuition congruence.
  - apply eq_None_not_Some. by rewrite Hdom.
Qed.

(** *** [list_find] and in-place updates *)

Section find_insert.
Context {A : Type} (P : A → Prop) `{!∀ x, Decision (P x)}.

Lemma list_find_insert_found (l : list A) i x y :
  list_find P l = Some (i, x) → P y →
  list_find P (<[i:=y]> l) = Some (i, y).
Proof.
  intros (Hi & _ & Hleast)%list_find_Some Hy.
  apply list_find_insert_Some. right; left.
  split_and!; eauto using lookup_lt_Some.
Qed.

Lemma list_find_insert_other (l : list A) i x y :
  l !! i = Some x → ¬P x → ¬P y →
  list_find P (<[i:=y]> l) = list_find P l.
Proof.
  revert i. induction l as [|z l IH]; intros [|i] Hi Hx Hy;
    simplify_eq/=; [by rewrite !decide_False by done|].
  case_decide; [done|]. by rewrite (IH i).
Qed.
End find_insert.

(** *** The two handlers, case by case *)

Section Handlers.
Variable tasks : list Task.t.
Variable isAdmin : bool.

Local Abbreviation handleDragOver := (handleDragOver isAdmin).
Local Abbreviation handleDragEnd := (handleDragEnd tasks isAdmin).
Local Abbreviation reachable := (reachable tasks isAdmin).
Local Abbreviation dragging := (dragging tasks isAdmin).
Local Abbreviation drop_outcome := (drop_outcome tasks).
Local Abbreviation in_step := (in_step tasks).
Local Abbreviation gesture_shape := (gesture_shape tasks).

Lemma truthy_Some c : truthy c = true → ∃ s, c = Some s ∧ s ≠ "".
Proof.
  destruct c as [s|]; [|done]. simpl. intros H. exists s. split; [done|].
  intros ->. done.
Qed.

(** [handleDragOver] either leaves the state alone or rewrites the
    status of the first task named [active] to a non-empty column
    name, and the latter only from a column other than 'completed'. *)
Lemma handleDragOver_cases st active over :
  handleDragOver st active over = st ∨
  ∃ i task oc,
    list_find (λ t, Task.id t = active) (localTasks st) = Some (i, task) ∧
    oc ≠ "" ∧
    findContainer (localTasks st) active ≠ Some "completed" ∧
    over ≫= findContainer (localTasks st) = Some oc ∧
    (isAdmin = false → oc ≠ "completed") ∧
    handleDragOver st active over =
      {| activeId := activeId st;
         localTasks := <[i := Task.with_status task oc]> (localTasks st);
         onStatusChange_calls := onStatusChange_calls st |}.
Proof.
  unfold KanbanBoard.handleDragOver. destruct over as [overId|]; [|by left]. simpl.
  destruct (truthy (findContainer (localTasks st) active)) eqn:Ha; [|by left].
  destruct (truthy (findContainer (localTasks st) overId)) eqn:Ho; [|by left].
  simpl. case_bool_decide as Hsame; [by left|]. simpl.
  case_bool_decide as Hcompleted; [by left|].
  destruct (truthy_Some _ Ho) as (oc & Hoc & Hne). rewrite Hoc.
  destruct (negb isAdmin && bool_decide (Some oc = Some "completed")) eqn:Hguard;
    [by left|].
  unfold move_to.
  destruct (list_find _ (localTasks st)) as [[i task]|] eqn:Hfind.
  - right. exists i, task, oc. split_and!; try done.
    intros ->. simpl in Hguard. case_bool_decide; [done|]. congruence.
  - left. by destruct st.
Qed.

Lemma handleDragOver_calls st active over :
  onStatusChange_calls (handleDragOver st active over) = onStatusChange_calls st.
Proof.
  destruct (handleDragOver_cases st active over) as [->|(?&?&?&_&_&_&_&_&->)]; done.
Qed.

Lemma handleDragEnd_cases st active over :
  drop_outcome st active (handleDragEnd st active over).
Proof.
  unfold KanbanBoard.handleDragEnd. destruct over as [overId|]; [|constructor].
  repeat (case_match; try constructor).
  eapply drop_commit; eauto.
  by match goal with H : negb (bool_decide _) = true |- _ =>
    apply negb_true_iff, bool_decide_eq_false in H end.
Qed.

(** *** The local copy against the [tasks] prop *)

Lemma in_step_refl : in_step tasks.
Proof. apply Forall_Forall2_diag, Forall_forall. auto. Qed.

Lemma reachable_in_step st : reachable st → in_step (localTasks st).
Proof.
  induction 1 as [|st ev _ IH]; [apply in_step_refl|].
  destruct ev as [a|a o|a o]; simpl; [done| |].
  - destruct (handleDragOver_cases st a o)
      as [->|(i & task & oc & Hfind & Hoc & _ & _ & _ & ->)]; [done|]. simpl.
    apply list_find_Some in Hfind as (Hi & _ & _).
    destruct (Forall2_lookup_l _ _ _ _ _ IH Hi) as (t0 & Hi0 & Hrel).
    unfold in_step. rewrite <- (list_insert_id tasks i t0 Hi0).
    apply Forall2_insert; [done|]. right. exists oc. split; [done|].
    destruct Hrel as [->|(s & _ & ->)]; done.
  - destruct (handleDragEnd_cases st a o); simpl; auto using in_step_refl.
Qed.

Lemma in_step_find local active :
  in_step local →
  match list_find (λ t, Task.id t = active) local,
        list_find (λ t, Task.id t = active) tasks with
  | Some (i, t), Some (j, t0) =>
      i = j ∧ (t = t0 ∨ ∃ s, s ≠ "" ∧ t = Task.with_status t0 s)
  | None, None => True
  | _, _ => False
  end.
Proof.
  unfold in_step. induction 1 as [|t t0 l l0 Hrel _ IH]; [done|]. simpl.
  assert (Task.id t = Task.id t0) as Hid by (by destruct Hrel as [->|(s & _ & ->)]).
  rewrite Hid. case_decide; [done|].
  destruct (list_find _ l) as [[i x]|], (list_find _ l0) as [[j y]|];
    simpl; try done. destruct IH as [-> ?]. done.
Qed.

(** *** Inside one gesture *)

Lemma dragging_shape active st : dragging active st → gesture_shape active (localTasks st).
Proof.
  induction 1 as [calls|st over _ IH]; [by left|].
  destruct (handleDragOver_cases st active over)
    as [->|(i & task & oc & Hfind & Hoc & _ & _ & _ & ->)]; [done|]. simpl.
  right. destruct IH as [Heq|(j & t0 & s & Hfind0 & Hs & Heq)]; rewrite Heq in *.
  - exists i, task, oc. done.
  - assert (Task.id t0 = active) as Hid
      by (by apply list_find_Some in Hfind0 as (_ & ? & _)).
    rewrite (list_find_insert_found _ _ _ _ (Task.with_status t0 s) Hfind0 Hid)
      in Hfind.
    injection Hfind as <- <-. exists j, t0, oc.
    by rewrite list_insert_insert_eq.
Qed.

Lemma gesture_shape_find active local :
  gesture_shape active local →
  local = tasks ∧
    list_find (λ t, Task.id t = active) local
    = list_find (λ t, Task.id t = active) tasks
  ∨ ∃ j t0 s, list_find (λ t, Task.id t = active) tasks = Some (j, t0) ∧
              list_find (λ t, Task.id t = active) local
              = Some (j, Task.with_status t0 s) ∧
              local = <[j := Task.with_status t0 s]> tasks.
Proof.
  intros [->|(j & t0 & s & Hfind & _ & ->)]; [by left|]. right.
  exists j, t0, s. split_and!; try done.
  eapply list_find_insert_found; [done|].
  by apply list_find_Some in Hfind as (_ & ? & _).
Qed.

Lemma findContainer_completed local active i task :
  list_find (λ t, Task.id t = active) local = Some (i, task) →
  Task.status task = "completed" ∨ Task.status task = "done" →
  active ∉ [ "todo"; "in_progress"; "in_review" ] →
  findContainer local active = Some "completed".
Proof.
  intros Hfind Hstatus Hid. unfold findContainer, columns. rewrite Hfind.
  repeat case_bool_decide; set_unfold; intuition congruence.
Qed.

(** C2. A non-admin gesture whose destination resolves to the
    'completed' column is refused: [handleDragOver] leaves the board as
    it is, and [handleDragEnd] makes no call to [onStatusChange] and
    leaves the dragged task with the status it has in [tasks]. *)
Theorem non_admin_cannot_complete st active overId :
  isAdmin = false →
  reachable st →
  findContainer (localTasks st) overId = Some "completed" →
  handleDragOver st active (Some overId) = st ∧
  let st' := handleDragEnd st active (Some overId) in
  onStatusChange_calls st' = onStatusChange_calls st ∧
  Task.status <$> find_task (localTasks st') active
  = Task.status <$> find_task tasks active.
Proof.
  intros Hadmin Hreach Hover. split.
  - destruct (handleDragOver_cases st active (Some overId))
      as [->|(i & task & oc & _ & _ & _ & Hoc & Hguard & _)]; [done|].
    simpl in Hoc. rewrite Hover in Hoc. injection Hoc as <-.
    by destruct (Hguard Hadmin).
  - unfold KanbanBoard.handleDragEnd. rewrite Hover, Hadmin. simpl.
    destruct (truthy (findContainer (localTasks st) active)) eqn:Hactive; simpl.
    + rewrite andb_false_r. done.
    + split; [done|].
      pose proof (in_step_find _ active (reachable_in_step _ Hreach)) as Hfind.
      unfold find_task. unfold findContainer in Hactive.
      case_bool_decide as Hcol.
      { simpl in Hactive. apply negb_false_iff, String.eqb_eq in Hactive.
        subst active. unfold columns in Hcol. set_unfold. intuition congruence. }
      destruct (list_find _ (localTasks st)) as [[i t]|],
               (list_find _ tasks) as [[j t0]|]; try done. simpl.
      destruct Hfind as [_ [->|(s & Hs & ->)]]; [done|]. simpl in Hactive.
      case_bool_decide; [done|]. simpl in Hactive.
      apply negb_false_iff, String.eqb_eq in Hactive. done.
Qed.

(** C3.  A task of status 'completed' or 'done', found under its id
    [active], is the same in every reachable state, stays in the
    'completed' column, and is never the subject of a call to
    [onStatusChange], whatever the role.  The id of a task is a UUID, so
    it is none of the column ids 'todo', 'in_progress' and
    'in_review'. *)
Theorem completed_task_is_terminal st active task :
  find_task tasks active = Some task →
  Task.status task = "completed" ∨ Task.status task = "done" →
  active ∉ [ "todo"; "in_progress"; "in_review" ] →
  reachable st →
  find_task (localTasks st) active = Some task ∧
  findContainer (localTasks st) active = Some "completed" ∧
  ∀ s, (active, s) ∉ onStatusChange_calls st.
Proof.
  intros Hfind Hstatus Hid Hreach. unfold find_task in Hfind.
  destruct (list_find _ tasks) as [[i t]|] eqn:Hfind0; simplify_eq/=.
  enough (list_find (λ t, Task.id t = active) (localTasks st) = Some (i, task)
          ∧ ∀ s, (active, s) ∉ onStatusChange_calls st) as [Hloc Hcalls].
  { unfold find_task. rewrite Hloc. eauto using findContainer_completed. }
  induction Hreach as [|st ev _ [IH IHcalls]].
  { split; [done|]. intros s. apply not_elem_of_nil. }
  destruct ev as [a|a o|a o]; simpl; [done| |].
  - rewrite handleDragOver_calls. split; [|done].
    destruct (handleDragOver_cases st a o)
      as [->|(j & t & oc & Hj & _ & Hnot & _ & _ & ->)]; [done|]. simpl.
    destruct (decide (a = active)) as [->|Hne].
    { destruct Hnot. eauto using findContainer_completed. }
    apply list_find_Some in Hj as (Hj & Ha & _).
    rewrite (list_find_insert_other _ _ _ t); [done..| |]; simpl; congruence.
  - destruct (handleDragEnd_cases st a o)
      as [| |finalTask originalTask Hfinal Horiginal Hdiff]; simpl; [done..|].
    split; [done|]. intros s [?|Hin%list_elem_of_singleton]%elem_of_app;
      [by eapply IHcalls|].
    injection Hin as -> ->. unfold find_task in Hfinal, Horiginal.
    rewrite IH in Hfinal. rewrite Hfind0 in Horiginal. simplify_eq/=.
Qed.

(** C4, as far as it holds.  At the end of a gesture on [active], in
    any reachable state, when the dragged card and the drop target, if
    there is one, resolve to a column, as every card and every column
    that the board renders does: with no drop target, or with the card
    in the 'completed' column of the local copy and a target that is not,
    or with a target in 'completed' and no admin, the local copy is reset
    to [tasks] without a call; otherwise [onStatusChange] is called once
    with the local status of the dragged task when that differs from its
    status in [tasks], and when it does not the local copy is kept as it
    is, without a call, and it equals [tasks] if it did when the gesture
    began. *)
Theorem handleDragEnd_commits_once_or_resets st active over :
  reachable st →
  truthy (findContainer (localTasks st) active) = true →
  (∀ overId, over = Some overId →
             truthy (findContainer (localTasks st) overId) = true) →
  let st' := handleDragEnd st active over in
  let activeContainer := findContainer (localTasks st) active in
  let overContainer := over ≫= findContainer (localTasks st) in
  let refused :=
    bool_decide (over = None)
    || bool_decide (activeContainer = Some "completed")
       && negb (bool_decide (overContainer = Some "completed"))
    || negb isAdmin && bool_decide (overContainer = Some "completed") in
  let local_status := Task.status <$> find_task (localTasks st) active in
  let external_status := Task.status <$> find_task tasks active in
  if refused then
    onStatusChange_calls st' = onStatusChange_calls st ∧
    localTasks st' = tasks
  else if bool_decide (local_status = external_status) then
    onStatusChange_calls st' = onStatusChange_calls st ∧
    localTasks st' = localTasks st ∧
    (dragging active st → localTasks st' = tasks)
  else
    ∃ newStatus, local_status = Some newStatus ∧
      onStatusChange_calls st'
      = onStatusChange_calls st ++ [(active, newStatus)] ∧
      localTasks st' = localTasks st.
Proof.
  intros Hreach Hactive Hover.
  pose proof (in_step_find _ active (reachable_in_step _ Hreach)) as Hfind.
  assert (dragging active st →
          Task.status <$> find_task (localTasks st) active
          = Task.status <$> find_task tasks active →
          localTasks st = tasks) as Hgesture.
  { intros Hdrag.
    destruct (gesture_shape_find _ _ (dragging_shape _ _ Hdrag))
      as [[? _]|(j & t0 & s & Hfind0 & Hlocal & Heq)]; [done|].
    unfold find_task. rewrite Hfind0, Hlocal, Heq. simpl. intros [= ->].
    apply list_find_Some in Hfind0 as (Hj & _ & _).
    rewrite <- (list_insert_id tasks j t0 Hj) at 2. by destruct t0. }
  unfold KanbanBoard.handleDragEnd. destruct over as [overId|]; simpl; [|done].
  rewrite Hactive, (Hover overId eq_refl). simpl.
  destruct (bool_decide (findContainer (localTasks st) active = Some "completed")
            && negb (bool_decide (findContainer (localTasks st) overId
                                  = Some "completed"))); simpl; [done|].
  destruct (negb isAdmin
            && bool_decide (findContainer (localTasks st) overId = Some "completed"));
    simpl; [done|].
  revert Hgesture. unfold find_task.
  destruct (list_find _ (localTasks st)) as [[i t]|],
           (list_find _ tasks) as [[j t0]|]; simpl; try done; intros Hgesture.
  - destruct (decide (Task.status t = Task.status t0)) as [Heq|Hne].
    + rewrite (bool_decide_eq_true_2 (Some (Task.status t) = Some (Task.status t0)))
        by congruence.
      rewrite (bool_decide_eq_true_2 (Task.status t = Task.status t0)) by done.
      simpl. split_and!; [done..|]. intros Hdrag. apply Hgesture; congruence.
    + rewrite (bool_decide_eq_false_2 (Some (Task.status t) = Some (Task.status t0)))
        by congruence.
      rewrite (bool_decide_eq_false_2 (Task.status t = Task.status t0)) by done.
      simpl. by eexists.
  - split_and!; [done..|]. intros Hdrag. by apply Hgesture.
Qed.
End Handlers.

(** C1, what the code does.  Whenever the grouping returns, the
    'completed' column holds exactly the tasks whose status is
    'completed'; the tasks of status 'done' sit in a bucket of their own
    that is no column of the board, so no column shows them; and a
    column only ever shows tasks of the list, unchanged, whose status is
    the column's id. *)
Theorem tasksByStatus_keeps_done_apart localTasks grouped :
  tasksByStatus localTasks = Some grouped →
  column_tasks grouped "completed"
  = filter (λ t, Task.status t = "completed") localTasks ∧
  grouped !! "done" = Some (filter (λ t, Task.status t = "done") localTasks) ∧
  ("done" ∉ columns) ∧
  (∀ col task, col ∈ columns → task ∈ column_tasks grouped col →
               task ∈ localTasks ∧ Task.status task = col) ∧
  (∀ col task, col ∈ columns → task ∈ localTasks → Task.status task = "done" →
               task ∉ column_tasks grouped col).
Proof.
  intros H.
  assert (∀ col, col ∈ columns →
            column_tasks grouped col = filter (λ t, Task.status t = col) localTasks)
    as Hcol.
  { intros col Hin. unfold column_tasks.
    rewrite (tasksByStatus_bucket _ _ _ H), bool_decide_eq_true_2; [done|].
    unfold columns in Hin. unfold own_keys. set_unfold. tauto. }
  assert ("done" ∉ columns) as Hdone.
  { unfold columns. set_unfold. intuition congruence. }
  split_and!.
  - apply Hcol. unfold columns. set_unfold. tauto.
  - by rewrite (tasksByStatus_bucket _ _ _ H).
  - done.
  - intros col task Hin. rewrite (Hcol col Hin), list_elem_of_filter. tauto.
  - intros col task Hin _ Hstatus. rewrite (Hcol col Hin), list_elem_of_filter.
    intros [Heq _]. rewrite Hstatus in Heq. by subst col.
Qed.

(** *** On the sample boards *)

Import Samples.

(** C1 at a board holding one 'done' task: the task is in no column. *)
Lemma tasksByStatus_keeps_done_apart_witness :
  ∃ grouped,
    tasksByStatus [legacy_task] = Some grouped ∧
    column_tasks grouped "completed" = [] ∧
    grouped !! "done" = Some [legacy_task].
Proof.
  assert (tasksByStatus [legacy_task]
          = Some (<["done" := [legacy_task]]> grouped_init)) as H
    by (vm_compute; reflexivity).
  eexists. split; [exact H|].
  destruct (tasksByStatus_keeps_done_apart _ _ H) as (Hc & Hd & _).
  split; [rewrite Hc|rewrite Hd]; reflexivity.
Defined.

(** C2 at a board with one open task, dropped on the 'completed' column
    by a non-admin after hovering over 'in_progress'. *)
Lemma non_admin_cannot_complete_witness :
  let tasks := [open_task] in
  let st := run tasks false (initial tasks)
              [DragStart "41aa"; DragOver "41aa" (Some "in_progress")] in
  localTasks st = [Task.with_status open_task "in_progress"] ∧
  handleDragOver false st "41aa" (Some "completed") = st ∧
  let st' := handleDragEnd tasks false st "41aa" (Some "completed") in
  onStatusChange_calls st' = onStatusChange_calls st ∧
  Task.status <$> find_task (localTasks st') "41aa"
  = Task.status <$> find_task tasks "41aa".
Proof.
  intros tasks st. split; [reflexivity|].
  apply (non_admin_cannot_complete tasks false st "41aa" "completed").
  - reflexivity.
  - repeat apply reachable_handle. apply reachable_initial.
  - reflexivity.
Defined.

(** Why [completed_task_is_terminal] asks that the id is no column id:
    [findContainer] compares its argument with the column ids before it
    looks for a task, so a task of status 'completed' whose id were
    'todo' would count as sitting in that column and could be moved.  The
    ids of the application are generated by the database
    ([id UUID PRIMARY KEY DEFAULT gen_random_uuid()]); no task has such an
    id. *)
Lemma completed_task_moved_when_id_is_column :
  let tasks := [clashing_task] in
  let st := run tasks false (initial tasks)
              [ DragStart "todo"; DragOver "todo" (Some "in_progress");
                DragEnd "todo" (Some "in_progress") ] in
  find_task tasks "todo" = Some clashing_task ∧
  Task.status clashing_task = "completed" ∧
  Task.status <$> find_task (localTasks st) "todo" = Some "in_progress" ∧
  onStatusChange_calls st = [("todo", "in_progress")].
Proof. vm_compute. repeat split. Qed.

(** C3 at a board with one 'done' task, under an admin's gesture. *)
Lemma completed_task_is_terminal_witness :
  let tasks := [legacy_task; open_task] in
  let st := run tasks true (initial tasks)
              [ DragStart "7c0e"; DragOver "7c0e" (Some "todo");
                DragEnd "7c0e" (Some "todo") ] in
  find_task (localTasks st) "7c0e" = Some legacy_task ∧
  findContainer (localTasks st) "7c0e" = Some "completed" ∧
  ∀ s, ("7c0e", s) ∉ onStatusChange_calls st.
Proof.
  intros tasks st.
  apply (completed_task_is_terminal tasks true st "7c0e" legacy_task).
  - reflexivity.
  - right. reflexivity.
  - unfold not. intros H. vm_compute in H. set_unfold. intuition congruence.
  - repeat apply reachable_handle. apply reachable_initial.
Defined.

(** C4 refuted as stated.  First, for an actor who is no admin: a
    gesture has committed 'in_progress' for one card, and before the
    [tasks] prop follows (the page's handler awaits the database, and
    leaves [tasks] as it is when the update fails) a second card is
    picked up and dropped on its own column.  No guard fails and the
    status of the second card has not changed, so this is one of the
    other cases of the claim; no call is made, but the local copy is not
    reset to [tasks]: it still shows the first card in 'in_progress'.
    Second, for an admin: a card dragged over the 'completed' column is
    in that column in the local copy when it is dropped there, so the
    guard 'source not completed' fails; the drop is committed all the
    same. *)
Lemma drop_neither_resets_nor_refuses :
  (let tasks := [first_card; second_card] in
   let first := Task.id first_card in
   let second := Task.id second_card in
   let st := run tasks false (initial tasks)
               [ DragStart first; DragOver first (Some "in_progress");
                 DragEnd first (Some "in_progress");
                 DragStart second; DragOver second (Some "todo") ] in
   let st' := handleDragEnd tasks false st second (Some "todo") in
   onStatusChange_calls st = [(first, "in_progress")] ∧
   findContainer (localTasks st) second = Some "todo" ∧
   Task.status <$> find_task (localTasks st) second
   = Task.status <$> find_task tasks second ∧
   onStatusChange_calls st' = onStatusChange_calls st ∧
   Task.status <$> find_task (localTasks st') first = Some "in_progress" ∧
   Task.status <$> find_task tasks first = Some "todo" ∧
   localTasks st' ≠ tasks) ∧
  (let tasks := [first_card] in
   let first := Task.id first_card in
   let st := run tasks true (initial tasks)
               [DragStart first; DragOver first (Some "completed")] in
   let st' := handleDragEnd tasks true st first (Some "completed") in
   findContainer tasks first = Some "todo" ∧
   findContainer (localTasks st) first = Some "completed" ∧
   onStatusChange_calls st' = [(first, "completed")] ∧
   localTasks st' ≠ tasks).
Proof. vm_compute. repeat split; intros [=]. Qed.

(** C4 at a drop on 'in_review' after a hover over a card to do and a
    hover over the 'in_review' column. *)
Lemma handleDragEnd_commits_once_or_resets_witness :
  let tasks := [open_task; pending_task] in
  let st := run tasks false (initial tasks)
              [ DragStart "41aa"; DragOver "41aa" (Some "t2");
                DragOver "41aa" (Some "in_review") ] in
  let st' := handleDragEnd tasks false st "41aa" (Some "in_review") in
  ∃ newStatus,
    Task.status <$> find_task (localTasks st) "41aa" = Some newStatus ∧
    onStatusChange_calls st' = onStatusChange_calls st ++ [("41aa", newStatus)] ∧
    localTasks st' = localTasks st.
Proof.
  intros tasks st.
  apply (handleDragEnd_commits_once_or_resets tasks false st "41aa"
           (Some "in_review")).
  - repeat apply reachable_handle. apply reachable_initial.
  - reflexivity.
  - intros overId [= <-]. reflexivity.
Defined.
End KanbanBoardFacts.

(** * Properties of the performance report *)

Module PerformanceFacts.
Import EmployeePerformance Performance.
Local Open Scope Q_scope.

(** *** The sort *)

Section sort.
Context {A : Type} (compareFn : A → A → Q).

Lemma insert_sorted_Permutation x (l : list A) :
  insert_sorted compareFn x l ≡ₚ x :: l.
Proof.
  induction l as [|y l IH]; simpl; [done|].
  destruct (Qle_bool (compareFn x y) 0); [done|].
  rewrite IH. apply Permutation_swap.
Qed.

Lemma Array_sort_Permutation (l : list A) : Array_sort compareFn l ≡ₚ l.
Proof.
  induction l as [|x l IH]; simpl; [done|].
  by rewrite insert_sorted_Permutation, IH.
Qed.

Lemma elem_of_Array_sort x (l : list A) : x ∈ Array_sort compareFn l ↔ x ∈ l.
Proof. by rewrite Array_sort_Permutation. Qed.
End sort.

(** Sorting by a score, best first. *)
Section descending.
Context {A : Type} (score : A → Q).

Local Abbreviation compareFn := (λ a b : A, score b - score a).
Local Abbreviation ge_score := (λ a b : A, score b <= score a).
Local Abbreviation has_score q := (λ a : A, Qeq_bool (score a) q).








End descending.

(** *** Grouping by user *)

Lemma tasksByUser_snoc tasks task :
  tasksByUser (tasks ++ [task]) = tasksByUser tasks ≫= λ a, group_by_user a task.
Proof. unfold tasksByUser. by rewrite foldl_app. Qed.

Lemma lookup_user_None acc userId :
  lookup_user acc userId = None ↔ userId ∉ acc.*1.
Proof.
  unfold lookup_user. rewrite fmap_None, list_find_None, Forall_forall.
  rewrite list_elem_of_fmap. split.
  - intros H (e & -> & He). by apply (H e).
  - intros H e He Heq. apply H. by exists e.
Qed.

Lemma push_user_keys acc userId task : (push_user acc userId task).*1 = acc.*1.
Proof.
  unfold push_user. rewrite <- list_fmap_compose. apply list_fmap_ext.
  intros _ e _. simpl. by case_bool_decide.
Qed.

Lemma elem_of_push_user acc userId task k ts :
  (k, ts) ∈ push_user acc userId task →
  ∃ ts0, (k, ts0) ∈ acc ∧ ts = if decide (k = userId) then ts0 ++ [task] else ts0.
Proof.
  unfold push_user. intros ([k0 ts0] & Heq & Hin)%list_elem_of_fmap. simpl in Heq.
  exists ts0. case_bool_decide; simplify_eq.
  - by rewrite decide_True.
  - by rewrite decide_False.
Qed.

Lemma push_user_absent acc userId task :
  userId ∉ acc.*1 → push_user acc userId task = acc.
Proof.
  intros H. unfold push_user. rewrite <- (list_fmap_id acc) at 2.
  apply list_fmap_ext. intros _ e He%list_elem_of_lookup_2. simpl.
  rewrite bool_decide_eq_false_2; [done|]. intros <-. apply H.
  by apply list_elem_of_fmap_2.
Qed.

Lemma group_by_user_spec tasks acc task obj :
  grouped_by_user tasks acc →
  group_by_user acc task = Some obj →
  grouped_by_user (tasks ++ [task]) obj.
Proof.
  intros [Hkeys Hall]. unfold group_by_user.
  set (userId := Task.assigned_user_id task).
  assert (∀ acc', acc'.*1 = acc.*1 ∨ acc'.*1 = acc.*1 ++ [userId] →
            userId ∈ acc'.*1 →
            (∀ k ts, (k, ts) ∈ acc' →
                     ts = user_tasks k tasks ++
                          (if decide (k = userId) then [task] else [])) →
            grouped_by_user (tasks ++ [task]) acc') as Hdone.
  { intros acc' Hdom Hu Hacc'. split.
    - intros k ts Hin. rewrite (Hacc' _ _ Hin). unfold user_tasks.
      rewrite filter_app. f_equal. rewrite filter_cons, filter_nil.
      fold userId. by destruct (decide (userId = k)), (decide (k = userId)).
    - intros t [Ht|Ht%list_elem_of_singleton]%elem_of_app; [|by subst t].
      specialize (Hall t Ht). destruct Hdom as [Hdom|Hdom]; rewrite Hdom; [done|].
      apply elem_of_app. by left. }
  destruct (lookup_user acc userId) eqn:Hlook.
  - intros [= <-]. apply Hdone.
    + left. apply push_user_keys.
    + rewrite push_user_keys. apply dec_stable. intros Hno.
      apply lookup_user_None in Hno. congruence.
    + intros k ts (ts0 & Hin & ->)%elem_of_push_user.
      rewrite (Hkeys _ _ Hin). destruct (decide (k = userId)); [done|].
      by rewrite app_nil_r.
  - apply lookup_user_None in Hlook. case_bool_decide; [done|]. intros [= <-].
    apply Hdone.
    + right. by rewrite push_user_keys, fmap_app.
    + rewrite push_user_keys, fmap_app. apply elem_of_app. right. simpl.
      apply list_elem_of_singleton. done.
    + intros k ts (ts0 & Hin & ->)%elem_of_push_user.
      apply elem_of_app in Hin as [Hin|Hin%list_elem_of_singleton].
      * rewrite (Hkeys _ _ Hin). destruct (decide (k = userId)) as [->|];
          [|by rewrite app_nil_r].
        destruct Hlook. by apply (list_elem_of_fmap_2 fst _ (userId, ts0)).
      * injection Hin as Hk Hts. subst k ts0.
        destruct (decide (userId = userId)); [|done].
        enough (user_tasks userId tasks = []) as -> by done.
        apply elem_of_nil_inv. intros t.
        unfold user_tasks. rewrite list_elem_of_filter. intros [Ht Hin].
        apply Hlook. rewrite <- Ht. by apply Hall.
Qed.

Lemma tasksByUser_spec tasks obj :
  tasksByUser tasks = Some obj → grouped_by_user tasks obj.
Proof.
  revert obj. induction tasks as [|task tasks IH] using rev_ind; intros obj.
  - intros [= <-]. split; [intros ? ?|intros ?]; by rewrite elem_of_nil.
  - rewrite tasksByUser_snoc. destruct (tasksByUser tasks) as [acc|]; [|done].
    simpl. eauto using group_by_user_spec.
Qed.

Lemma elem_of_Object_entries obj e : e ∈ Object_entries obj → e ∈ obj.
Proof.
  unfold Object_entries.
  intros [([i e'] & -> & Hin)%list_elem_of_fmap|Hin]%elem_of_app.
  - apply elem_of_Array_sort, list_elem_of_omap in Hin as (e0 & Hin & Heq).
    destruct (array_index e0.1); simplify_eq/=. done.
  - by apply list_elem_of_In, filter_In in Hin as [Hin%list_elem_of_In _].
Qed.

(** *** Counting *)

Lemma count_cons p task l :
  count p (task :: l) = ((if p task then 1 else 0) + count p l)%Z.
Proof. unfold count. simpl. destruct (p task); simpl; lia. Qed.

Lemma count_nonneg p l : (0 ≤ count p l)%Z.
Proof. unfold count. lia. Qed.

Lemma count_le p q l :
  (∀ task, p task = true → q task = true) → (count p l ≤ count q l)%Z.
Proof.
  intros Hpq. induction l as [|task l IH]; [done|]. rewrite !count_cons.
  specialize (Hpq task).
  destruct (p task), (q task); first [lia|by specialize (Hpq eq_refl)].
Qed.

Lemma count_le_length p l : (count p l ≤ Z.of_nat (length l))%Z.
Proof.
  induction l as [|task l IH]; [done|]. rewrite count_cons.
  destruct (p task); simpl length; lia.
Qed.

Lemma count_zero p l : (∀ task, task ∈ l → p task = false) → count p l = 0%Z.
Proof.
  induction l as [|task l IH]; intros H; [done|]. rewrite count_cons.
  rewrite (H task) by apply list_elem_of_here. rewrite IH; [done|].
  intros t Ht. apply H. by apply list_elem_of_further.
Qed.

(** The same count, with the test read as a proposition. *)
Lemma count_filter p (P : Task.t → Prop) `{!∀ t, Decision (P t)} l :
  (∀ task, p task = true ↔ P task) →
  count p l = Z.of_nat (length (filter P l)).
Proof.
  intros Hp. induction l as [|task l IH]; [done|]. rewrite count_cons, IH.
  rewrite filter_cons. specialize (Hp task).
  destruct (p task), (decide (P task)); simpl length;
    first [lia|intuition discriminate].
Qed.

Lemma has_status_iff s task : has_status s task = true ↔ Task.status task = s.
Proof. apply String.eqb_eq. Qed.

(** The four recognised groups of statuses exclude each other. *)
Lemma count_recognised_le l :
  (count (has_status "completed") l + count (has_status "in_progress") l
   + count (has_status "todo") l
   + count (λ task, has_status "in_review" task || has_status "done" task) l
   ≤ Z.of_nat (length l))%Z.
Proof.
  induction l as [|task l IH]; [done|]. rewrite !count_cons. simpl length.
  unfold has_status at 1 3 5 7 8.
  repeat match goal with
         | |- context [String.eqb ?a ?b] =>
             destruct (String.eqb_spec a b) as [Heq|?]; [try rewrite Heq in *|]
         end; simpl; try discriminate; lia.
Qed.

(** *** Rates and rounding *)



Lemma toFixed1_zero x : x == 0 → toFixed1 x == 0.
Proof.
  intros Hx. unfold toFixed1. rewrite Hx.
  assert (Qfloor (Qabs x * 10 + 0.5) = 0%Z) as ->.
  { rewrite (Qfloor_comp _ 0.5); [done|]. by rewrite Hx. }
  assert (Qlt_bool x 0 = false) as ->.
  { unfold Qlt_bool. apply negb_false_iff, Qle_bool_iff. by rewrite Hx. }
  done.
Qed.


Section Clock.
Variable getTime : string → option Z.
Variable now : Z.

Local Abbreviation employee := (employee getTime now).
Local Abbreviation calculateEmployeePerformance :=
  (calculateEmployeePerformance getTime now).

(** Every record of the report is the record of its user, computed from
    the tasks assigned to that user and a profile with the user's id. *)
Lemma report_records tasks profiles recs r :
  calculateEmployeePerformance tasks profiles = Some recs →
  r ∈ recs →
  ∃ profile,
    r = employee (id r) (user_tasks (id r) tasks) profile.
Proof.
  unfold Performance.calculateEmployeePerformance.
  destruct (tasksByUser tasks) as [obj|] eqn:Hobj; [|done]. simpl.
  intros [= <-] Hin. apply elem_of_Array_sort in Hin.
  unfold performanceData in Hin.
  apply list_elem_of_omap in Hin as ([userId ts] & Hin & Heq).
  apply elem_of_Object_entries in Hin.
  destruct (tasksByUser_spec _ _ Hobj) as [Hkeys _].
  rewrite (Hkeys _ _ Hin) in Heq. simpl in Heq.
  destruct (list_find _ profiles) as [[? profile]|]; simplify_eq/=.
  by exists profile.
Qed.


(** C7. In every record of the report, [cancelledTasks] is
    [totalTasks] minus the tasks of status 'completed', 'in_progress',
    'todo', and 'in_review' or 'done', clamped at zero, and so never
    negative, whatever statuses the task list holds. *)
Theorem cancelledTasks_is_the_clamped_remainder tasks profiles recs r :
  calculateEmployeePerformance tasks profiles = Some recs →
  r ∈ recs →
  let userTasks := user_tasks (id r) tasks in
  let with_status s :=
    Z.of_nat (length (filter (λ t, Task.status t = s) userTasks)) in
  let reviewTasks :=
    Z.of_nat (length (filter (λ t, Task.status t = "in_review"
                                   ∨ Task.status t = "done") userTasks)) in
  totalTasks r = Z.of_nat (length userTasks) ∧
  completedTasks r = with_status "completed" ∧
  cancelledTasks r
  = Z.max 0 (totalTasks r
             - (completedTasks r + with_status "in_progress"
                + with_status "todo" + reviewTasks)) ∧
  (0 ≤ cancelledTasks r)%Z.
Proof.
  intros Hrecs Hr. destruct (report_records _ _ _ _ Hrecs Hr) as [profile Heq].
  remember (id r) as userId eqn:Hid. clear Hid. subst r. cbn zeta.
  cbn [totalTasks completedTasks cancelledTasks Performance.employee].
  pose proof (count_recognised_le (user_tasks userId tasks)) as Hle.
  rewrite <- !(count_filter (has_status _)) by apply has_status_iff.
  rewrite <- (count_filter
                (λ task, has_status "in_review" task || has_status "done" task)).
  2: { intros task. rewrite orb_true_iff, !has_status_iff. done. }
  unfold or_zero. split_and!; [done|done| |]; case_match; lia.
Qed.


(** C10. A task of status 'completed' without a [finish_time] passes
    neither the filter of [overdueTasks] nor that of
    [tasksCompletedOnTime]; so, for a user with completed tasks, all of
    them lacking a [finish_time], both the punctuality rate and the
    efficiency of the record are 0, below 100. *)
Theorem completed_without_finish_time tasks profiles recs r :
  (∀ task, Task.status task = "completed" → Task.finish_time task = None →
           is_overdue getTime now task = false ∧
           is_completed_on_time getTime task = false) ∧
  (calculateEmployeePerformance tasks profiles = Some recs →
   r ∈ recs →
   (∀ task, task ∈ user_tasks (id r) tasks →
            Task.status task = "completed" → Task.finish_time task = None) →
   (0 < completedTasks r)%Z →
   punctualityRate r == 0 ∧ efficiency r == 0 ∧
   punctualityRate r < 100 ∧ efficiency r < 100).
Proof.
  assert (∀ task, Task.status task = "completed" → Task.finish_time task = None →
                  is_overdue getTime now task = false ∧
                  is_completed_on_time getTime task = false) as Htask.
  { intros task Hs Hnone. unfold is_overdue, is_completed_on_time.
    by rewrite (proj2 (has_status_iff _ _) Hs), Hnone. }
  split; [exact Htask|]. intros Hrecs Hr Hnone Hpos.
  assert (∀ task, task ∈ user_tasks (id r) tasks →
            is_completed_on_time getTime task = false) as Hnever.
  { intros task Hin.
    destruct (has_status "completed" task) eqn:Hs.
    - apply has_status_iff in Hs. by apply Htask, Hnone.
    - unfold is_completed_on_time. by rewrite Hs. }
  assert (punctualityRate r == 0 ∧ efficiency r == 0) as [Hp He].
  { destruct (report_records _ _ _ _ Hrecs Hr) as [profile Heq].
    remember (id r) as userId eqn:Hid. clear Hid. subst r.
    cbn [punctualityRate efficiency Performance.employee].
    rewrite (count_zero _ _ Hnever).
    split; apply toFixed1_zero; case_match; try done;
      unfold Qdiv; change (inject_Z 0) with 0; ring. }
  split_and!; [done|done|rewrite Hp; reflexivity|rewrite He; reflexivity].
Qed.

End Clock.

(** *** On the sample reports *)

Import Samples.

Lemma backlog_report_eq :
  calculateEmployeePerformance getTime march_3 backlog team = Some backlog_report.
Proof. vm_compute. reflexivity. Defined.


Lemma unstamped_report_eq :
  calculateEmployeePerformance getTime march_3 [unstamped_task] team
  = Some unstamped_report.
Proof. vm_compute. reflexivity. Defined.

(** C7 on a task list with a status the application does not know. *)
Lemma cancelledTasks_is_the_clamped_remainder_witness :
  calculateEmployeePerformance getTime march_3 backlog team = Some backlog_report ∧
  Forall (λ r, (0 ≤ cancelledTasks r)%Z) backlog_report.
Proof.
  split; [exact backlog_report_eq|]. apply Forall_forall. intros r Hr.
  apply (cancelledTasks_is_the_clamped_remainder getTime march_3
           backlog team backlog_report r backlog_report_eq Hr).
Defined.



(** C10 on a user whose one completed task has no finish time. *)
Lemma completed_without_finish_time_witness :
  calculateEmployeePerformance getTime march_3 [unstamped_task] team
  = Some unstamped_report ∧
  Forall (λ r, punctualityRate r < 100 ∧ efficiency r < 100) unstamped_report.
Proof.
  split; [exact unstamped_report_eq|]. apply Forall_forall. intros r Hr.
  assert (r ∈ unstamped_report) as Hin by exact Hr.
  destruct (proj2 (completed_without_finish_time getTime march_3
                     [unstamped_task] team unstamped_report r)
              unstamped_report_eq Hin) as (_ & _ & Hp & He).
  - intros task Htask _. apply list_elem_of_singleton in Hr. subst r.
    vm_compute in Htask. apply list_elem_of_singleton in Htask. by subst task.
  - apply list_elem_of_singleton in Hr. subst r. reflexivity.
  - exact (conj Hp He).
Defined.
End PerformanceFacts.

(** * Properties of the report in double precision *)

Module DoubleFacts.
Import PrimFloat SpecFloat FloatOps FloatAxioms.
Local Open Scope float_scope.

Lemma mul_comm (x y : float) : x * y = y * x.
Proof.
  apply Prim2SF_inj. rewrite !mul_spec. unfold SF64mul, SFmul.
  destruct (Prim2SF x) as [sx|sx| |sx mx ex], (Prim2SF y) as [sy|sy| |sy my ey];
    try done; rewrite (xorb_comm sx sy); try done.
  by rewrite (Pos.mul_comm mx my), (Z.add_comm ex ey).
Qed.

Lemma binary_round_aux_sign s m e l :
  match binary_round_aux prec emax s m e l with
  | S754_zero s' | S754_infinity s' | S754_finite s' _ _ => s' = s
  | S754_nan => True
  end.
Proof.
  unfold binary_round_aux.
  destruct (shr_fexp prec emax m e l) as [mrs e'].
  destruct (shr_fexp prec emax _ e' loc_Exact) as [mrs' e''].
  destruct (shr_m mrs'); [done| |done]. by destruct (_ <=? _)%Z.
Qed.

Lemma nonneg_of_Z z : (0 ≤ z)%Z → Double.nonneg (Double.of_Z z).
Proof.
  intros Hz. unfold Double.nonneg, Double.of_Z.
  rewrite (proj2 (Z.ltb_ge z 0) Hz), of_uint63_spec.
  pose proof (Uint63.to_Z_bounded (Uint63.of_Z z)) as [Hpos _].
  destruct (Uint63.to_Z (Uint63.of_Z z)) as [|p|p]; [done| |lia].
  unfold binary_normalize, binary_round. destruct (shl_align _ _ _).
  apply binary_round_aux_sign.
Qed.

Lemma nonneg_mul x y : Double.nonneg x → Double.nonneg y → Double.nonneg (x * y).
Proof.
  unfold Double.nonneg. rewrite mul_spec. unfold SF64mul, SFmul.
  destruct (Prim2SF x) as [sx|sx| |sx mx ex], (Prim2SF y) as [sy|sy| |sy my ey];
    try done; intros -> ->; try done.
  apply binary_round_aux_sign.
Qed.

Lemma nonneg_div x y : Double.nonneg x → Double.nonneg y → Double.nonneg (x / y).
Proof.
  unfold Double.nonneg. rewrite div_spec. unfold SF64div, SFdiv.
  destruct (Prim2SF x) as [sx|sx| |sx mx ex], (Prim2SF y) as [sy|sy| |sy my ey];
    try done; intros -> ->; try done.
  destruct (SFdiv_core_binary _ _ _ _ _ _) as [[mz ez] lz].
  apply binary_round_aux_sign.
Qed.

Lemma add_zero_l y : Double.nonneg y → 0 + y = y.
Proof.
  unfold Double.nonneg. intros Hy. apply Prim2SF_inj. rewrite add_spec.
  change (Prim2SF 0) with (S754_zero false). unfold SF64add, SFadd.
  destruct (Prim2SF y) as [sy|sy| |sy my ey]; try done. by rewrite Hy.
Qed.
End DoubleFacts.

Module Performance64Facts.
Import PrimFloat.
Import EmployeePerformance(Rating, excellent, good, average, needs_improvement).
Import Performance(has_status, count, time_lt, time_gt, time_le,
                   is_completed_on_time, or_zero, tasksByUser, Object_entries,
                   user_tasks).
Import Performance64 PerformanceFacts(tasksByUser_spec, elem_of_Object_entries,
                                      count_nonneg, count_cons, has_status_iff).
Local Open Scope float_scope.

(** *** Sorting *)

Section sort.
Context {A : Type} (compareFn : A → A → float).

Lemma insert_sorted_double_Permutation x (l : list A) :
  insert_sorted compareFn x l ≡ₚ x :: l.
Proof.
  induction l as [|y l IH]; [done|]. simpl.
  destruct (negb _); [done|]. by rewrite IH, Permutation_swap.
Qed.

Lemma Array_sort_double_Permutation (l : list A) : Array_sort compareFn l ≡ₚ l.
Proof.
  induction l as [|x l IH]; [done|]. simpl.
  by rewrite insert_sorted_double_Permutation, IH.
Qed.

Lemma elem_of_Array_sort_double x (l : list A) : x ∈ Array_sort compareFn l ↔ x ∈ l.
Proof. by rewrite Array_sort_double_Permutation. Qed.
End sort.

(** Lists that are related element by element stay so when both are
    sorted, if related elements compare alike. *)
Section sort_related.
Context {A : Type} (compareFn : A → A → float) (R : A → A → Prop).
Hypothesis compareFn_R :
  ∀ a a' b b', R a a' → R b b' → compareFn a b = compareFn a' b'.

Lemma insert_sorted_double_Forall2 x x' l l' :
  R x x' → Forall2 R l l' →
  Forall2 R (insert_sorted compareFn x l) (insert_sorted compareFn x' l').
Proof using compareFn_R.
  intros Hx. induction 1 as [|y y' l l' Hy Hl IH]; simpl.
  - by repeat constructor.
  - rewrite (compareFn_R x x' y y') by done.
    destruct (negb _); repeat constructor; done.
Qed.

Lemma Array_sort_double_Forall2 l l' :
  Forall2 R l l' → Forall2 R (Array_sort compareFn l) (Array_sort compareFn l').
Proof using compareFn_R.
  induction 1; simpl; [constructor|]. by apply insert_sorted_double_Forall2.
Qed.
End sort_related.

Lemma filter_iff_elem {A} (P1 P2 : A → Prop)
    `{!∀ x, Decision (P1 x), !∀ x, Decision (P2 x)} (l : list A) :
  (∀ x, x ∈ l → P1 x ↔ P2 x) → filter P1 l = filter P2 l.
Proof.
  induction l as [|x l IH]; intros Hiff; [done|]. rewrite !filter_cons.
  rewrite IH by (intros y Hy; by apply Hiff, list_elem_of_further).
  pose proof (Hiff x (list_elem_of_here _ _)).
  destruct (decide (P1 x)), (decide (P2 x)); tauto.
Qed.

(** *** The formula *)

Lemma nonneg_percentage part whole :
  (0 ≤ part)%Z → Double.nonneg (percentage part whole).
Proof.
  intros Hpart. unfold percentage. destruct (0 <? whole)%Z eqn:Hwhole; [|done].
  apply Z.ltb_lt in Hwhole.
  apply DoubleFacts.nonneg_mul; [|done].
  apply DoubleFacts.nonneg_div; apply DoubleFacts.nonneg_of_Z; lia.
Qed.

(** The score as the loop accumulates it is the formula of the
    specification: the first summand is added to [+0], which leaves it
    as it is unless it is [-0], and a rate is never that. *)
Lemma composite_score_accumulated completionRate punctualityRate efficiency
    avgCompletionTime cancellationRate :
  Double.nonneg completionRate →
  0 + completionRate * 0.3 + punctualityRate * 0.25 + efficiency * 0.2
  + timeEfficiency_of avgCompletionTime * 0.15
  + Double.Math_max 0 (100 - cancellationRate) * 0.1
  = composite_score completionRate punctualityRate efficiency avgCompletionTime
      cancellationRate.
Proof.
  intros Hrate. unfold composite_score, timeEfficiency_of.
  rewrite DoubleFacts.add_zero_l by (by apply DoubleFacts.nonneg_mul).
  by rewrite (DoubleFacts.mul_comm _ 0.3), (DoubleFacts.mul_comm _ 0.25),
       (DoubleFacts.mul_comm _ 0.2), (DoubleFacts.mul_comm _ 0.15),
       (DoubleFacts.mul_comm _ 0.1).
Qed.

Lemma rating_of_else_chain score :
  (rating_of score = excellent ↔ (85 <=? score) = true) ∧
  (rating_of score = good ↔ (85 <=? score) = false ∧ (70 <=? score) = true) ∧
  (rating_of score = average ↔
   (85 <=? score) = false ∧ (70 <=? score) = false ∧ (50 <=? score) = true) ∧
  (rating_of score = needs_improvement ↔
   (85 <=? score) = false ∧ (70 <=? score) = false ∧ (50 <=? score) = false).
Proof.
  unfold rating_of.
  destruct (85 <=? score), (70 <=? score), (50 <=? score);
    split_and!; split; try done; try (by intros [? ?]); by intros (? & ? & ?).
Qed.

(** *** The records and the clock *)

Section Clock.
Variable getTime : string → option Z.

(** A task completed after its deadline. *)
Local Abbreviation late :=
  (λ task : Task.t,
     Task.status task = "completed" ∧ truthy (Task.finish_time task) = true ∧
     time_gt (Task.finish_time task ≫= getTime) (getTime (Task.deadline task))
     = true).
(** A task not completed whose deadline lies before [now]. *)
Local Abbreviation due now :=
  (λ task : Task.t,
     Task.status task ≠ "completed" ∧
     time_lt (getTime (Task.deadline task)) (Some now) = true).
(** Equal in every field but [overdueTasks]. *)
Local Abbreviation same_but_overdueTasks :=
  (λ r1 r2 : Performance64.t, r2 = with_overdueTasks r1 (overdueTasks r2)).

Lemma employee_clocks clock1 clock2 reads1 reads2 userId userTasks profile :
  same_but_overdueTasks
    (employee getTime clock1 reads1 userId userTasks profile).1
    (employee getTime clock2 reads2 userId userTasks profile).1.
Proof.
  unfold employee.
  by destruct (overdueTasks_of getTime clock1 reads1 userTasks),
       (overdueTasks_of getTime clock2 reads2 userTasks).
Qed.

Lemma employee_id clock reads userId userTasks profile :
  id (employee getTime clock reads userId userTasks profile).1 = userId.
Proof. unfold employee. by destruct (overdueTasks_of _ _ _ _). Qed.

Lemma employee_overdueTasks clock reads userId userTasks profile :
  overdueTasks (employee getTime clock reads userId userTasks profile).1
  = (overdueTasks_of getTime clock reads userTasks).1.
Proof. unfold employee. by destruct (overdueTasks_of _ _ _ _). Qed.

Lemma foldl_loop_body clock profiles entries : ∀ data reads,
  ∃ rest reads',
    foldl (loop_body getTime clock profiles) (data, reads) entries
    = (data ++ rest, reads') ∧
    ∀ r, r ∈ rest →
      ∃ e profile reads0,
        e ∈ entries ∧
        snd <$> list_find (λ p, Profile.id p = e.1) profiles = Some profile ∧
        r = (employee getTime clock reads0 e.1 e.2 profile).1.
Proof.
  induction entries as [|e entries IH]; intros data reads; simpl.
  { exists [], reads. rewrite app_nil_r. split; [done|].
    intros r Hr. by apply elem_of_nil in Hr. }
  destruct (snd <$> list_find _ profiles) as [profile|] eqn:Hfind.
  - destruct (employee getTime clock reads e.1 e.2 profile) as [r0 reads0] eqn:Hr0.
    destruct (IH (data ++ [r0]) reads0) as (rest & reads' & -> & Hrest).
    exists (r0 :: rest), reads'. rewrite <- app_assoc. split; [done|].
    intros r [->|Hr]%elem_of_cons.
    + exists e, profile, reads. rewrite Hr0. split_and!; [left|done|done].
    + destruct (Hrest r Hr) as (e' & p' & n' & ? & ? & ?).
      exists e', p', n'. split_and!; [by right|done|done].
  - destruct (IH data reads) as (rest & reads' & -> & Hrest).
    exists rest, reads'. split; [done|]. intros r Hr.
    destruct (Hrest r Hr) as (e' & p' & n' & ? & ? & ?).
    exists e', p', n'. split_and!; [by right|done|done].
Qed.

Lemma foldl_loop_body_clock clock1 clock2 profiles entries :
  ∀ data1 data2 reads1 reads2,
    Forall2 same_but_overdueTasks data1 data2 →
    Forall2 same_but_overdueTasks
      (foldl (loop_body getTime clock1 profiles) (data1, reads1) entries).1
      (foldl (loop_body getTime clock2 profiles) (data2, reads2) entries).1.
Proof.
  induction entries as [|e entries IH]; intros data1 data2 reads1 reads2 Hdata;
    simpl; [done|].
  destruct (snd <$> list_find _ profiles) as [profile|]; [|by apply IH].
  pose proof (employee_clocks clock1 clock2 reads1 reads2 e.1 e.2 profile) as Hr.
  destruct (employee getTime clock1 reads1 e.1 e.2 profile) as [r1 n1],
           (employee getTime clock2 reads2 e.1 e.2 profile) as [r2 n2].
  apply IH. apply Forall2_app; [done|]. by constructor.
Qed.

(** Every record of the report is the record of its user, computed from
    the tasks assigned to that user, a profile with the user's id and
    the clock from some reading on. *)
Lemma report_record_double clock tasks profiles recs r :
  calculateEmployeePerformance getTime clock tasks profiles = Some recs →
  r ∈ recs →
  ∃ profile reads,
    r = (employee getTime clock reads (id r) (user_tasks (id r) tasks) profile).1.
Proof.
  unfold calculateEmployeePerformance.
  destruct (tasksByUser tasks) as [obj|] eqn:Hobj; [|done]. simpl.
  intros [= <-] Hin. apply elem_of_Array_sort_double in Hin.
  unfold performanceData in Hin.
  destruct (foldl_loop_body clock profiles (Object_entries obj) [] 0%nat)
    as (rest & reads' & Heq & Hrest).
  rewrite Heq in Hin. simpl in Hin.
  destruct (Hrest r Hin) as ([userId ts] & profile & reads & He & _ & ->).
  apply elem_of_Object_entries in He.
  destruct (tasksByUser_spec _ _ Hobj) as [Hkeys _].
  rewrite (Hkeys _ _ He). simpl. rewrite employee_id.
  by exists profile, reads.
Qed.

(** The count of overdue tasks lies between what the callback counts at
    the earliest and at the latest reading of the clock. *)
Lemma overdue_step_bounds clock lo hi userTasks :
  (∀ n, (lo ≤ clock n ≤ hi)%Z) →
  ∀ n reads,
    (n + Z.of_nat (length (filter late userTasks))
       + Z.of_nat (length (filter (due lo) userTasks))
     ≤ (foldl (overdue_step getTime clock) (n, reads) userTasks).1
     ≤ n + Z.of_nat (length (filter late userTasks))
       + Z.of_nat (length (filter (due hi) userTasks)))%Z.
Proof.
  intros Hclock. induction userTasks as [|task l IH]; intros n reads; simpl; [lia|].
  rewrite !filter_cons. unfold is_overdue.
  destruct (has_status "completed" task) eqn:Hstatus.
  - apply has_status_iff in Hstatus.
    rewrite (decide_False (P := due lo task)), (decide_False (P := due hi task))
      by (by intros [? _]).
    destruct (truthy (Task.finish_time task)
              && time_gt (Task.finish_time task ≫= getTime)
                   (getTime (Task.deadline task))) eqn:Hlate.
    + apply andb_true_iff in Hlate as [? ?].
      rewrite decide_True by done. specialize (IH (n + 1)%Z reads).
      simpl length. lia.
    + rewrite decide_False.
      { specialize (IH n reads). lia. }
      intros (_ & ? & ?). apply andb_false_iff in Hlate as [?|?]; congruence.
  - assert (Task.status task ≠ "completed") as Hopen.
    { intros Heq%has_status_iff. congruence. }
    rewrite (decide_False (P := late task)) by (by intros [? _]).
    simpl. rewrite andb_true_r. specialize (Hclock reads).
    unfold time_lt in *. destruct (getTime (Task.deadline task)) as [d|].
    + destruct (Z.ltb_spec d (clock reads)), (Z.ltb_spec d lo), (Z.ltb_spec d hi);
        try lia.
      * rewrite !decide_True by done. specialize (IH (n + 1)%Z (S reads)).
        simpl length. lia.
      * rewrite decide_False by (by intros [_ ?]). rewrite decide_True by done.
        specialize (IH (n + 1)%Z (S reads)). simpl length. lia.
      * rewrite decide_False by (by intros [_ ?]). rewrite decide_True by done.
        specialize (IH n (S reads)). simpl length. lia.
      * rewrite !decide_False by (by intros [_ ?]).
        specialize (IH n (S reads)). lia.
    + rewrite !decide_False by (by intros [_ ?]).
      specialize (IH n (S reads)). lia.
Qed.

(** C5.  The score of the formula is computed, in double precision and
    from left to right, from the rates and the average completion time
    before they are rounded; [performanceScore] is that score rounded to
    one decimal, and the rating follows the thresholds on the score
    before rounding. *)
Theorem performanceScore_is_the_rounded_composite clock tasks profiles recs r :
  calculateEmployeePerformance getTime clock tasks profiles = Some recs →
  r ∈ recs →
  let userTasks := user_tasks (id r) tasks in
  let tasksCompletedOnTime :=
    Z.of_nat (length (filter (λ t, is_completed_on_time getTime t = true)
                        userTasks)) in
  let completionRate := percentage (completedTasks r) (totalTasks r) in
  let punctualityRate := percentage tasksCompletedOnTime (completedTasks r) in
  let efficiency := percentage tasksCompletedOnTime (totalTasks r) in
  let avgCompletionTime := avgCompletionTime_of getTime userTasks in
  let cancellationRate := percentage (cancelledTasks r) (totalTasks r) in
  let score :=
    composite_score completionRate punctualityRate efficiency
      avgCompletionTime cancellationRate in
  Performance64.completionRate r = Double.toFixed1 completionRate ∧
  Performance64.punctualityRate r = Double.toFixed1 punctualityRate ∧
  Performance64.efficiency r = Double.toFixed1 efficiency ∧
  Performance64.avgCompletionTime r = Double.toFixed1 avgCompletionTime ∧
  performanceScore r = Double.toFixed1 score ∧
  (performanceRating r = excellent ↔ (85 <=? score) = true) ∧
  (performanceRating r = good ↔
   (85 <=? score) = false ∧ (70 <=? score) = true) ∧
  (performanceRating r = average ↔
   (85 <=? score) = false ∧ (70 <=? score) = false ∧ (50 <=? score) = true) ∧
  (performanceRating r = needs_improvement ↔
   (85 <=? score) = false ∧ (70 <=? score) = false ∧ (50 <=? score) = false).
Proof.
  intros Hrecs Hr.
  destruct (report_record_double _ _ _ _ _ Hrecs Hr) as (profile & reads & Heq).
  remember (id r) as userId eqn:Hid. clear Hid. subst r. cbn zeta.
  unfold employee. destruct (overdueTasks_of _ _ _ _) as [overdue reads'].
  cbn [totalTasks completedTasks cancelledTasks performanceScore
       performanceRating Performance64.completionRate
       Performance64.punctualityRate Performance64.efficiency
       Performance64.avgCompletionTime fst].
  rewrite <- (PerformanceFacts.count_filter (is_completed_on_time getTime)) by done.
  fold (percentage (count (has_status "completed") (user_tasks userId tasks))
          (Z.of_nat (length (user_tasks userId tasks)))).
  fold (percentage (count (is_completed_on_time getTime) (user_tasks userId tasks))
          (count (has_status "completed") (user_tasks userId tasks))).
  fold (percentage (count (is_completed_on_time getTime) (user_tasks userId tasks))
          (Z.of_nat (length (user_tasks userId tasks)))).
  match goal with
  | |- context [or_zero ?c] =>
      fold (percentage (or_zero c) (Z.of_nat (length (user_tasks userId tasks))))
  end.
  rewrite composite_score_accumulated
    by (apply nonneg_percentage, count_nonneg).
  split_and!; try reflexivity; apply rating_of_else_chain.
Qed.

(** C6.  Two runs on the same lists, each reading its own clock, return
    or fail alike, and their reports agree record by record, in the same
    order, on every field but [overdueTasks].  That field counts the
    tasks of the user completed after their deadline, together with the
    other tasks of the user whose deadline lies before the clock reading
    taken for them; so it lies between the count at the earliest reading
    and the count at the latest, and the two reports are equal when no
    deadline of a task that is not completed falls in between. *)
Theorem report_depends_on_clock_through_overdueTasks
    clock1 clock2 lo hi tasks profiles recs1 :
  (∀ n, (lo ≤ clock1 n ≤ hi)%Z) →
  (∀ n, (lo ≤ clock2 n ≤ hi)%Z) →
  calculateEmployeePerformance getTime clock1 tasks profiles = Some recs1 →
  ∃ recs2,
    calculateEmployeePerformance getTime clock2 tasks profiles = Some recs2 ∧
    Forall2 same_but_overdueTasks recs1 recs2 ∧
    Forall (λ r,
              let userTasks := user_tasks (id r) tasks in
              (Z.of_nat (length (filter late userTasks))
               + Z.of_nat (length (filter (due lo) userTasks))
               ≤ overdueTasks r
               ≤ Z.of_nat (length (filter late userTasks))
                 + Z.of_nat (length (filter (due hi) userTasks)))%Z)
           (recs1 ++ recs2) ∧
    ((∀ task d, task ∈ tasks → Task.status task ≠ "completed" →
                getTime (Task.deadline task) = Some d → ¬ (lo ≤ d < hi)%Z) →
     recs2 = recs1).
Proof.
  intros Hclock1 Hclock2 Hrecs1.
  assert (∀ clock recs r,
            (∀ n, (lo ≤ clock n ≤ hi)%Z) →
            calculateEmployeePerformance getTime clock tasks profiles = Some recs →
            r ∈ recs →
            let userTasks := user_tasks (id r) tasks in
            (Z.of_nat (length (filter late userTasks))
             + Z.of_nat (length (filter (due lo) userTasks))
             ≤ overdueTasks r
             ≤ Z.of_nat (length (filter late userTasks))
               + Z.of_nat (length (filter (due hi) userTasks)))%Z) as Hbounds.
  { intros clock recs r Hclock Hrecs Hr.
    destruct (report_record_double _ _ _ _ _ Hrecs Hr) as (profile & reads & Heq).
    remember (id r) as userId eqn:Hid. clear Hid. subst r. cbn zeta.
    rewrite employee_overdueTasks. unfold overdueTasks_of.
    pose proof (overdue_step_bounds clock lo hi (user_tasks userId tasks)
                  Hclock 0%Z reads). lia. }
  revert Hrecs1 Hbounds. unfold calculateEmployeePerformance.
  destruct (tasksByUser tasks) as [obj|]; [|done]. simpl.
  intros [= <-] Hbounds. eexists. split; [done|].
  assert (Forall2 same_but_overdueTasks
            (Array_sort by_score
               (performanceData getTime clock1 (Object_entries obj) profiles))
            (Array_sort by_score
               (performanceData getTime clock2 (Object_entries obj) profiles)))
    as Hsame.
  { apply Array_sort_double_Forall2.
    { intros a a' b b' -> ->. done. }
    by apply foldl_loop_body_clock. }
  split; [done|]. split.
  { apply Forall_app. split; apply Forall_forall; intros r Hr.
    - exact (Hbounds clock1 _ r Hclock1 eq_refl Hr).
    - exact (Hbounds clock2 _ r Hclock2 eq_refl Hr). }
  intros Hnone.
  assert (∀ r, filter (due lo) (user_tasks (id r) tasks)
               = filter (due hi) (user_tasks (id r) tasks)) as Hdue.
  { intros r. apply filter_iff_elem.
    intros task [_ Htask]%list_elem_of_filter.
    split; intros [Hopen Hlt]; (split; [done|]); revert Hlt; unfold time_lt;
      destruct (getTime (Task.deadline task)) as [d|] eqn:Hd; try done;
      rewrite !Z.ltb_lt; specialize (Hnone task d Htask Hopen Hd);
      pose proof (Hclock1 0%nat); lia. }
  assert (∀ r1 r2, r1 ∈ Array_sort by_score
                          (performanceData getTime clock1 (Object_entries obj) profiles) →
                   r2 ∈ Array_sort by_score
                          (performanceData getTime clock2 (Object_entries obj) profiles) →
                   same_but_overdueTasks r1 r2 → r2 = r1) as Hequal.
  { intros r1 r2 Hr1 Hr2 Hr.
    pose proof (Hbounds clock1 _ r1 Hclock1 eq_refl Hr1) as H1.
    pose proof (Hbounds clock2 _ r2 Hclock2 eq_refl Hr2) as H2.
    assert (id r2 = id r1) as Hid by (by rewrite Hr).
    cbn zeta in H1, H2. rewrite Hid in H2. rewrite Hdue in H1, H2.
    rewrite Hr. destruct r1. unfold with_overdueTasks. simpl in *. f_equal. lia. }
  revert Hequal. induction Hsame as [|r1 r2 l1 l2 Hr _ IH]; intros Hequal; [done|].
  f_equal.
  - apply Hequal; [left|left|done].
  - apply IH. intros ? ? ? ?. apply Hequal; by right.
Qed.

(** *** The report over exact rationals *)

(** A record in double precision and a record over the rationals that
    agree on the user, on the name and avatar and on the four counters. *)
Local Abbreviation same_counters :=
  (λ (r64 : Performance64.t) (r : EmployeePerformance.t),
     id r64 = EmployeePerformance.id r ∧
     name r64 = EmployeePerformance.name r ∧
     avatar_url r64 = EmployeePerformance.avatar_url r ∧
     totalTasks r64 = EmployeePerformance.totalTasks r ∧
     completedTasks r64 = EmployeePerformance.completedTasks r ∧
     overdueTasks r64 = EmployeePerformance.overdueTasks r ∧
     cancelledTasks r64 = EmployeePerformance.cancelledTasks r).

Lemma overdue_step_still_clock now userTasks : ∀ n reads,
  (foldl (overdue_step getTime (λ _, now)) (n, reads) userTasks).1
  = (n + count (Performance.is_overdue getTime now) userTasks)%Z.
Proof.
  induction userTasks as [|task l IH]; intros n reads; simpl.
  { unfold count. simpl. lia. }
  assert (∃ reads', is_overdue getTime (λ _, now) reads task
                    = (Performance.is_overdue getTime now task, reads'))
    as [reads' ->].
  { unfold is_overdue, Performance.is_overdue.
    destruct (has_status "completed" task); by eexists. }
  rewrite count_cons, IH. destruct (Performance.is_overdue getTime now task); lia.
Qed.

(** With a clock that stands still, the records computed in double
    precision and the records computed over the rationals are the records
    of the same users in the same order, with the same counters. *)
Lemma performanceData_same_counters now profiles entries :
  Forall2 same_counters
    (performanceData getTime (λ _, now) entries profiles)
    (Performance.performanceData getTime now entries profiles).
Proof.
  unfold performanceData, Performance.performanceData.
  enough (∀ data reads dataQ,
            Forall2 same_counters data dataQ →
            Forall2 same_counters
              (foldl (loop_body getTime (λ _, now) profiles) (data, reads) entries).1
              (dataQ ++ omap (λ e,
                          profile ← snd <$> list_find (λ p, Profile.id p = e.1) profiles;
                          Some (Performance.employee getTime now e.1 e.2 profile))
                        entries)) as H
    by (by apply (H [] 0%nat [])).
  induction entries as [|e entries IH]; intros data reads dataQ Hdata; simpl.
  { by rewrite app_nil_r. }
  destruct (snd <$> list_find _ profiles) as [profile|]; simpl; [|by apply IH].
  pose proof (employee_overdueTasks (λ _, now) reads e.1 e.2 profile) as Hoverdue.
  unfold overdueTasks_of in Hoverdue. rewrite overdue_step_still_clock in Hoverdue.
  assert (same_counters (employee getTime (λ _, now) reads e.1 e.2 profile).1
            (Performance.employee getTime now e.1 e.2 profile)) as Hsame.
  { split_and!; [..|exact Hoverdue|];
      unfold employee; by destruct (overdueTasks_of _ _ _ _). }
  destruct (employee getTime (λ _, now) reads e.1 e.2 profile) as [r reads'].
  simpl in Hsame.
  assert (∀ l, dataQ ++ Performance.employee getTime now e.1 e.2 profile :: l
               = (dataQ ++ [Performance.employee getTime now e.1 e.2 profile]) ++ l)
    as -> by (intros l; by rewrite <- app_assoc).
  apply IH. apply Forall2_app; [done|]. by constructor.
Qed.
End Clock.

(** *** On the sample reports *)

Import Samples Samples64.

Lemma late_report_double :
  calculateEmployeePerformance getTime on_march_3 [late_task] team
  = Some late_report.
Proof. vm_compute. reflexivity. Defined.

Lemma backlog_report_double :
  calculateEmployeePerformance getTime on_march_3 backlog team
  = Some backlog_report.
Proof. vm_compute. reflexivity. Defined.

(** C5 refuted as stated: one task, completed late after 6.7 hours.  The
    record shows a [performanceScore] of 50, which is not the value
    49.975 of the formula on the fields of the record, and the rating is
    'needs_improvement' although the score shown has reached 50. *)
Lemma performanceScore_50_rated_needs_improvement :
  ∃ r,
    calculateEmployeePerformance getTime on_march_3 [late_task] team = Some [r] ∧
    completionRate r = 100 ∧ punctualityRate r = 0 ∧ efficiency r = 0 ∧
    avgCompletionTime r = 6.7 ∧
    percentage (cancelledTasks r) (totalTasks r) = 0 ∧
    composite_score (completionRate r) (punctualityRate r) (efficiency r)
      (avgCompletionTime r) (percentage (cancelledTasks r) (totalTasks r))
    = 49.975 ∧
    performanceScore r = 50 ∧
    (composite_score (completionRate r) (punctualityRate r) (efficiency r)
       (avgCompletionTime r) (percentage (cancelledTasks r) (totalTasks r))
     <? performanceScore r) = true ∧
    (50 <=? performanceScore r) = true ∧
    performanceRating r = needs_improvement.
Proof.
  eexists. split; [exact late_report_double|].
  vm_compute. repeat split.
Qed.

(** C5 on the same task. *)
Lemma performanceScore_is_the_rounded_composite_witness :
  calculateEmployeePerformance getTime on_march_3 [late_task] team
  = Some late_report ∧
  Forall (λ r, ∃ score,
              score = 49.975 ∧
              performanceScore r = Double.toFixed1 score ∧
              (performanceRating r = needs_improvement ↔
               (85 <=? score) = false ∧ (70 <=? score) = false
               ∧ (50 <=? score) = false))
         late_report.
Proof.
  split; [exact late_report_double|]. apply Forall_forall. intros r Hr.
  pose proof (performanceScore_is_the_rounded_composite getTime on_march_3
                [late_task] team late_report r late_report_double Hr)
    as (_ & _ & _ & _ & Hscore & _ & _ & _ & Hrating).
  eexists. split; [|split; [exact Hscore|exact Hrating]].
  apply list_elem_of_singleton in Hr. subst r. vm_compute. reflexivity.
Defined.

(** The same formula in double precision and in exact arithmetic: for
    the four tasks of [mixed_tasks] the rates are 75, 100/3 and 25 and the
    average time is 130/9 hours, which makes the score exactly 50; the
    double-precision sum stays below 50, and the rating is taken from it.
    For a task in review after four minutes the score 24.95 is, as a
    double, below 24.95 and is shown as 24.9. *)
Lemma score_in_double_precision :
  (∃ r, calculateEmployeePerformance getTime on_march_3 mixed_tasks team = Some [r] ∧
        performanceScore r = 50 ∧ performanceRating r = needs_improvement ∧
        composite_score 75 (percentage 1 3) 25 (avgCompletionTime_of getTime mixed_tasks) 0
        = 49.99999999999999) ∧
  (∃ r, calculateEmployeePerformance getTime on_march_3 [quick_task] team = Some [r] ∧
        performanceScore r = 24.9).
Proof. split; eexists; (split; [vm_compute; reflexivity|]); vm_compute; repeat split. Qed.

(** C6 refuted as stated: the same lists, read on 1 March and on
    3 March, around the deadline of the one open task. *)
Lemma report_changes_with_the_clock :
  match calculateEmployeePerformance getTime on_march_1 [pending_task] team,
        calculateEmployeePerformance getTime on_march_3 [pending_task] team with
  | Some [before], Some [after] =>
      overdueTasks before = 0%Z ∧ overdueTasks after = 1%Z ∧ before ≠ after
  | _, _ => False
  end.
Proof. vm_compute. repeat split. intros H. discriminate H. Qed.

(** C6 on the sample backlog, read on 1 March and on 3 March. *)
Lemma report_depends_on_clock_through_overdueTasks_witness :
  ∃ recs1 recs2,
    calculateEmployeePerformance getTime on_march_1 backlog team = Some recs1 ∧
    calculateEmployeePerformance getTime on_march_3 backlog team = Some recs2 ∧
    Forall2 (λ r1 r2, r2 = with_overdueTasks r1 (overdueTasks r2)) recs1 recs2.
Proof.
  destruct (calculateEmployeePerformance getTime on_march_1 backlog team)
    as [recs1|] eqn:Hrecs1; [|by vm_compute in Hrecs1].
  destruct (report_depends_on_clock_through_overdueTasks getTime
              on_march_1 on_march_3 march_1 march_3 backlog team recs1)
    as (recs2 & Hrecs2 & Hsame & _).
  - intros n. vm_compute. split; discriminate.
  - intros n. vm_compute. split; discriminate.
  - exact Hrecs1.
  - by exists recs1, recs2.
Defined.
End Performance64Facts.

(** * More on the kanban board *)

Module KanbanBoardCoverage.
Import KanbanBoard KanbanBoardFacts.

(** *** Grouping *)

Lemma own_keys_not_inherited k : k ∈ own_keys → k ∉ Object_prototype_keys.
Proof. unfold own_keys, Object_prototype_keys. set_unfold. intuition congruence. Qed.

Lemma columns_own_keys col : col ∈ columns → col ∈ own_keys.
Proof. unfold own_keys, columns. set_unfold. tauto. Qed.

Lemma group_task_None g task :
  (∀ k, is_Some (g !! k) ↔ k ∈ own_keys) →
  group_task g task = None ↔ Task.status task ∈ Object_prototype_keys.
Proof.
  intros Hdom. unfold group_task, push, get.
  destruct (g !! Task.status task) as [l|] eqn:Hl.
  - split; [done|]. intros Hin. exfalso.
    eapply own_keys_not_inherited; [|exact Hin]. apply Hdom. by rewrite Hl.
  - destruct (decide (Task.status task ∈ Object_prototype_keys)) as [Hproto|Hproto].
    { by rewrite !(bool_decide_eq_true_2 _ Hproto). }
    rewrite (bool_decide_eq_false_2 _ Hproto).
    destruct (decide (Task.status task = "done")) as [Hdone|Hdone].
    { exfalso. assert (is_Some (g !! Task.status task)) as [? ?]; [|congruence].
      apply Hdom. rewrite Hdone. unfold own_keys. set_unfold. tauto. }
    by rewrite (bool_decide_eq_false_2 _ Hdone).
Qed.

Lemma group_from_None l : ∀ g,
  (∀ k, is_Some (g !! k) ↔ k ∈ own_keys) →
  group_from g l = None
  ↔ Exists (λ task, Task.status task ∈ Object_prototype_keys) l.
Proof.
  induction l as [|task l IH]; intros g Hdom.
  - split; [done|]. by intros ?%Exists_nil.
  - rewrite group_from_cons, Exists_cons.
    pose proof (group_task_None g task Hdom) as Hnone.
    destruct (group_task g task) as [g1|] eqn:H1; simpl.
    + destruct (group_task_own _ _ _ Hdom H1) as [Hdom1 _].
      rewrite (IH g1 Hdom1). split; [by right|].
      intros [Hin|?]; [|done]. by apply Hnone in Hin.
    + split; [|done]. intros _. left. by apply Hnone.
Qed.

(** X1. The grouping throws exactly when some task has a status that
    names a member of [Object.prototype]; any other status, known or not,
    is grouped or passed over without an error. *)
Theorem tasksByStatus_throws_iff localTasks :
  tasksByStatus localTasks = None
  ↔ ∃ task, task ∈ localTasks ∧ Task.status task ∈ Object_prototype_keys.
Proof.
  unfold tasksByStatus. rewrite (group_from_None _ _ grouped_init_own), Exists_exists.
  done.
Qed.

(** X2. Each of the four columns lists the tasks of its status in the
    order of the task list, each as often as it occurs there; a task whose
    status is no column id is listed in no column. *)
Theorem columns_list_their_tasks_in_order localTasks grouped :
  tasksByStatus localTasks = Some grouped →
  (∀ col, col ∈ columns →
          column_tasks grouped col
          = filter (λ t, Task.status t = col) localTasks) ∧
  (∀ task col, Task.status task ∉ columns → col ∈ columns →
               task ∉ column_tasks grouped col).
Proof.
  intros H.
  assert (∀ col, col ∈ columns →
            column_tasks grouped col = filter (λ t, Task.status t = col) localTasks)
    as Hcol.
  { intros col Hin. unfold column_tasks.
    by rewrite (tasksByStatus_bucket _ _ _ H),
         (bool_decide_eq_true_2 _ (columns_own_keys _ Hin)). }
  split; [done|]. intros task col Hstatus Hin.
  rewrite (Hcol col Hin), list_elem_of_filter. intros [Heq _]. by subst col.
Qed.

Lemma list_find_NoDup (l : list Task.t) task :
  NoDup (Task.id <$> l) → task ∈ l →
  ∃ i, list_find (λ t, Task.id t = Task.id task) l = Some (i, task).
Proof.
  induction l as [|t l IH]; intros Hnodup Hin; [by apply elem_of_nil in Hin|].
  rewrite fmap_cons in Hnodup. apply NoDup_cons in Hnodup as [Hnotin Hnodup].
  simpl. apply elem_of_cons in Hin as [->|Hin].
  - exists 0. by rewrite decide_True.
  - rewrite decide_False.
    + destruct (IH Hnodup Hin) as [i ->]. by exists (S i).
    + intros Heq. apply Hnotin. rewrite Heq. by apply list_elem_of_fmap_2.
Qed.

(** X3. When the task ids are pairwise distinct and none of them is a
    column id, a card shown in a column resolves to that column as its
    container. *)
Theorem shown_card_resolves_to_its_column localTasks grouped col task :
  NoDup (Task.id <$> localTasks) →
  (∀ t, t ∈ localTasks → Task.id t ∉ columns) →
  tasksByStatus localTasks = Some grouped →
  col ∈ columns →
  task ∈ column_tasks grouped col →
  findContainer localTasks (Task.id task) = Some col.
Proof.
  intros Hnodup Hids H Hcol Hin.
  unfold column_tasks in Hin.
  rewrite (tasksByStatus_bucket _ _ _ H),
    (bool_decide_eq_true_2 _ (columns_own_keys _ Hcol)) in Hin. simpl in Hin.
  apply list_elem_of_filter in Hin as [Hstatus Hin].
  unfold findContainer. rewrite bool_decide_eq_false_2 by auto.
  destruct (list_find_NoDup _ _ Hnodup Hin) as [i ->].
  rewrite Hstatus. case_bool_decide as Hdone; [|done].
  subst col. exfalso. revert Hcol. unfold columns. set_unfold. intuition congruence.
Qed.

(** *** The local copy and the commits *)

Section Handlers.
Variable tasks : list Task.t.
Variable isAdmin : bool.
Import KanbanBoardShape.

Local Abbreviation reachable := (reachable tasks isAdmin).

Lemma with_status_id (t : Task.t) : Task.with_status t (Task.status t) = t.
Proof. by destruct t. Qed.

Lemma in_step_with_refl P : in_step_with P tasks tasks.
Proof. apply Forall_Forall2_diag, Forall_forall. auto. Qed.

Lemma in_step_with_move P local i task oc :
  in_step_with P tasks local → local !! i = Some task → P oc →
  in_step_with P tasks (<[i := Task.with_status task oc]> local).
Proof.
  intros Hstep Hi Hoc.
  destruct (Forall2_lookup_l _ _ _ _ _ Hstep Hi) as (t0 & Hi0 & Hrel).
  unfold in_step_with. rewrite <- (list_insert_id tasks i t0 Hi0).
  apply Forall2_insert; [done|]. right. exists oc. split; [done|].
  by destruct Hrel as [->|(s & _ & ->)].
Qed.

Lemma in_step_with_find P local active :
  in_step_with P tasks local →
  match list_find (λ t, Task.id t = active) local,
        list_find (λ t, Task.id t = active) tasks with
  | Some (i, t), Some (j, t0) =>
      i = j ∧ (t = t0 ∨ ∃ s, P s ∧ t = Task.with_status t0 s)
  | None, None => True
  | _, _ => False
  end.
Proof.
  unfold in_step_with. induction 1 as [|t t0 l l0 Hrel _ IH]; [done|]. simpl.
  assert (Task.id t = Task.id t0) as Hid by (by destruct Hrel as [->|(s & _ & ->)]).
  rewrite Hid. case_decide; [done|].
  destruct (list_find _ l) as [[i x]|], (list_find _ l0) as [[j y]|];
    simpl; try done. by destruct IH as [-> ?].
Qed.

(** Whatever holds of every column a card can be moved to holds of every
    status the local copy has taken and of every status committed; and a
    commit always names a task of the list and a status other than the
    one the task has there. *)
Lemma reachable_with (P : string → Prop) :
  (∀ local overId oc,
     in_step_with P tasks local →
     findContainer local overId = Some oc →
     oc ≠ "" → (isAdmin = false → oc ≠ "completed") → P oc) →
  ∀ st, reachable st →
    in_step_with P tasks (localTasks st) ∧
    ∀ a s, (a, s) ∈ onStatusChange_calls st →
           P s ∧ ∃ t0, find_task tasks a = Some t0 ∧ s ≠ Task.status t0.
Proof.
  intros HP st. induction 1 as [|st ev _ [IH IHcalls]].
  { split; [apply in_step_with_refl|]. intros a s Hin. by apply elem_of_nil in Hin. }
  destruct ev as [a|a o|a o]; simpl; [done| |].
  - rewrite handleDragOver_calls. split; [|done].
    destruct (handleDragOver_cases isAdmin st a o)
      as [->|(i & task & oc & Hfind & Hne & _ & Hoc & Hguard & ->)]; [done|]. simpl.
    destruct o as [overId|]; [|done]. simpl in Hoc.
    apply list_find_Some in Hfind as (Hi & _ & _).
    eauto using in_step_with_move.
  - destruct (handleDragEnd_cases tasks isAdmin st a o)
      as [| |finalTask originalTask Hfinal Horiginal Hdiff]; simpl;
      [split; [apply in_step_with_refl|done]|done|].
    split; [done|].
    intros a' s [?|Hin%list_elem_of_singleton]%elem_of_app; [by apply IHcalls|].
    injection Hin as -> ->.
    split; [|by exists originalTask].
    pose proof (in_step_with_find P _ a IH) as Hfind.
    unfold find_task in Hfinal, Horiginal.
    destruct (list_find _ (localTasks st)) as [[i t]|],
             (list_find _ tasks) as [[j t0]|]; simplify_eq/=.
    by destruct Hfind as [_ [->|(s & Hs & ->)]].
Qed.

(** X4. The board never adds, removes or reorders tasks, and never
    touches a field of a task other than its status: in every reachable
    state the local copy is the external list with, at most, other
    statuses. *)
Theorem board_only_rewrites_statuses st :
  reachable st →
  length (localTasks st) = length tasks ∧
  ∀ i t, localTasks st !! i = Some t →
         ∃ t0, tasks !! i = Some t0 ∧ t = Task.with_status t0 (Task.status t).
Proof.
  intros Hreach.
  destruct (reachable_with (λ _, True) (λ _ _ _ _ _ _ _, I) st Hreach) as [Hstep _].
  split; [by eapply Forall2_length|]. intros i t Hi.
  destruct (Forall2_lookup_l _ _ _ _ _ Hstep Hi) as (t0 & Hi0 & Hrel).
  exists t0. split; [done|].
  destruct Hrel as [->|(s & _ & ->)]; [by rewrite with_status_id|done].
Qed.

(** X5. Every call the board makes to [onStatusChange] names a task of
    the external list (the first with that id) and a status that is not
    empty and differs from the status the task has there. *)
Theorem commits_are_real_changes st a s :
  reachable st →
  (a, s) ∈ onStatusChange_calls st →
  s ≠ "" ∧ ∃ t0, find_task tasks a = Some t0 ∧ s ≠ Task.status t0.
Proof.
  intros Hreach Hin.
  by destruct (reachable_with (λ s, s ≠ "") (λ _ _ _ _ _ H _, H) st Hreach)
    as [_ Hcalls]; apply Hcalls.
Qed.

(** X6. With [isAdmin = false] the board never commits the status
    'completed', whatever the events. *)
Theorem non_admin_never_commits_completed st a s :
  isAdmin = false →
  reachable st →
  (a, s) ∈ onStatusChange_calls st →
  s ≠ "completed".
Proof.
  intros Hadmin Hreach Hin.
  destruct (reachable_with (λ s, s ≠ "completed")
              (λ _ _ _ _ _ _ H, H Hadmin) st Hreach) as [_ Hcalls].
  by destruct (Hcalls a s Hin).
Qed.

(** X7. When every task of the external list has one of the five known
    statuses, every status the board commits is the id of one of the four
    columns; in particular the legacy status 'done' is never written. *)
Theorem commits_are_column_ids st a s :
  (∀ t, t ∈ tasks → Task.status t ∈ own_keys) →
  reachable st →
  (a, s) ∈ onStatusChange_calls st →
  s ∈ columns.
Proof.
  intros Hknown Hreach Hin.
  enough (∀ local overId oc,
            in_step_with (λ s, s ∈ columns) tasks local →
            findContainer local overId = Some oc →
            oc ≠ "" → (isAdmin = false → oc ≠ "completed") → oc ∈ columns) as HP.
  { destruct (reachable_with (λ s, s ∈ columns) HP st Hreach) as [_ Hcalls].
    by destruct (Hcalls a s Hin). }
  clear Hin. intros local overId oc Hstep Hfind _ _. revert Hfind.
  unfold findContainer. case_bool_decide as Hcol; [by intros [= <-]|].
  destruct (list_find _ local) as [[i t]|] eqn:Hi; [|done].
  apply list_find_Some in Hi as (Hi & _ & _).
  destruct (Forall2_lookup_l _ _ _ _ _ Hstep Hi) as (t0 & Hi0 & Hrel).
  assert (Task.status t ∈ own_keys) as Hstatus.
  { destruct Hrel as [->|(s' & Hs & ->)].
    - eapply Hknown, list_elem_of_lookup_2, Hi0.
    - by apply columns_own_keys. }
  case_bool_decide as Hdone; intros [= <-].
  - unfold columns. set_unfold. tauto.
  - revert Hstatus Hdone. unfold own_keys, columns. set_unfold. tauto.
Qed.

(** *** Hovering twice *)

Lemma truthy_ne (s : string) : s ≠ "" → truthy (Some s) = true.
Proof. intros Hs. simpl. apply negb_true_iff, String.eqb_neq, Hs. Qed.

Lemma findContainer_column local x oc :
  x ∈ columns → findContainer local x = Some oc → oc = x.
Proof. unfold findContainer. intros Hx. rewrite bool_decide_eq_true_2 by done. congruence. Qed.

Lemma findContainer_not_done local x : findContainer local x ≠ Some "done".
Proof.
  unfold findContainer. case_bool_decide as Hcol.
  - intros [= ->]. revert Hcol. unfold columns. set_unfold. intuition congruence.
  - destruct (list_find _ local) as [[i t]|]; [|done].
    case_bool_decide; congruence.
Qed.

(** The containers after the first task named [a] went to [oc]. *)
Lemma findContainer_move local i task oc a x :
  list_find (λ t, Task.id t = a) local = Some (i, task) →
  oc ≠ "done" →
  findContainer (<[i := Task.with_status task oc]> local) x
  = if bool_decide (x ∈ columns) then Some x
    else if bool_decide (x = a) then Some oc
    else findContainer local x.
Proof.
  intros Hfind Hoc. unfold findContainer. case_bool_decide; [done|].
  pose proof Hfind as (Hi & Ha & _)%list_find_Some.
  case_bool_decide as Hx.
  - subst x. rewrite (list_find_insert_found _ _ _ _ (Task.with_status task oc) Hfind Ha).
    simpl. by rewrite bool_decide_eq_false_2.
  - rewrite (list_find_insert_other _ _ _ task); [done..| |]; simpl; congruence.
Qed.

Lemma handleDragOver_moved st a overId :
  handleDragOver isAdmin st a (Some overId) = st ∨
  ∃ i task ac oc,
    list_find (λ t, Task.id t = a) (localTasks st) = Some (i, task) ∧
    findContainer (localTasks st) a = Some ac ∧
    findContainer (localTasks st) overId = Some oc ∧
    ac ≠ "" ∧ oc ≠ "" ∧ ac ≠ oc ∧ ac ≠ "completed" ∧
    (isAdmin = false → oc ≠ "completed") ∧
    handleDragOver isAdmin st a (Some overId) =
      {| activeId := activeId st;
         localTasks := <[i := Task.with_status task oc]> (localTasks st);
         onStatusChange_calls := onStatusChange_calls st |}.
Proof.
  unfold handleDragOver.
  destruct (truthy (findContainer (localTasks st) a)) eqn:Ha; [|by left].
  destruct (truthy (findContainer (localTasks st) overId)) eqn:Ho; [|by left].
  simpl. case_bool_decide as Hsame; [by left|]. simpl.
  case_bool_decide as Hcompleted; [by left|].
  destruct (truthy_Some _ Ha) as (ac & Hac & Hacne).
  destruct (truthy_Some _ Ho) as (oc & Hoc & Hocne).
  rewrite Hoc.
  destruct (negb isAdmin && bool_decide (Some oc = Some "completed")) eqn:Hguard;
    [by left|].
  unfold move_to.
  destruct (list_find _ (localTasks st)) as [[i task]|] eqn:Hfind.
  - right. exists i, task, ac, oc. split_and!; try done; try congruence.
    intros ->. simpl in Hguard. case_bool_decide; [done|]. congruence.
  - left. by destruct st.
Qed.

(** X8. A second [handleDragOver] with the same card over the same target
    changes nothing more. *)
Theorem handleDragOver_idempotent st a over :
  handleDragOver isAdmin (handleDragOver isAdmin st a over) a over
  = handleDragOver isAdmin st a over.
Proof.
  destruct over as [overId|]; [|done].
  destruct (handleDragOver_moved st a overId)
    as [Hsame|(i & task & ac & oc & Hfind & Hac & Hoc & Hacne & Hocne & Hdiff
               & Hnotcompleted & Hguard & Hmoved)].
  { by rewrite !Hsame. }
  rewrite Hmoved. unfold handleDragOver at 1. cbn [localTasks].
  assert (oc ≠ "done") as Hnotdone.
  { intros ->. by apply (findContainer_not_done (localTasks st) overId). }
  rewrite !(findContainer_move _ _ _ _ a) by done.
  assert ((if bool_decide (overId ∈ columns) then Some overId
           else if bool_decide (overId = a) then Some oc
           else findContainer (localTasks st) overId) = Some oc) as ->.
  { case_bool_decide as Hcol.
    - f_equal. symmetry. by eapply findContainer_column.
    - by case_bool_decide. }
  rewrite (bool_decide_eq_true_2 (a = a)) by done.
  destruct (decide (a ∈ columns)) as [Hcol|Hcol].
  - rewrite (bool_decide_eq_true_2 _ Hcol).
    assert (ac = a) as -> by (by eapply findContainer_column).
    rewrite !truthy_ne by done. simpl.
    rewrite (bool_decide_eq_false_2 (Some a = Some oc)) by congruence.
    rewrite (bool_decide_eq_false_2 (Some a = Some "completed")) by congruence.
    assert (negb isAdmin && bool_decide (Some oc = Some "completed") = false) as ->.
    { destruct isAdmin; [done|]. simpl. apply bool_decide_eq_false_2.
      intros [= ->]. by apply Hguard. }
    unfold move_to. cbn [localTasks].
    pose proof Hfind as (_ & Ha & _)%list_find_Some.
    rewrite (list_find_insert_found _ _ _ _ (Task.with_status task oc) Hfind Ha).
    by rewrite list_insert_insert_eq.
  - rewrite (bool_decide_eq_false_2 _ Hcol).
    rewrite (bool_decide_eq_true_2 (Some oc = Some oc)) by done.
    by rewrite orb_true_r.
Qed.
End Handlers.
End KanbanBoardCoverage.

(** * The status button and the pages *)

Module TaskFlowCoverage.
Import KanbanBoard.

(** *** The status button of a card *)

Lemma getNextStatus_cases isAdmin s :
  (s = "todo" ∧ TaskCard.getNextStatus isAdmin s = TaskCard.Next "in_progress") ∨
  (s = "in_progress" ∧ TaskCard.getNextStatus isAdmin s = TaskCard.Next "in_review") ∨
  (s = "in_review" ∧ isAdmin = true
   ∧ TaskCard.getNextStatus isAdmin s = TaskCard.Next "completed") ∨
  ((s = "in_review" ∧ isAdmin = false ∨ s = "done" ∨ s = "completed")
   ∧ TaskCard.getNextStatus isAdmin s = TaskCard.Null) ∨
  (s ∈ Object_prototype_keys
   ∧ TaskCard.getNextStatus isAdmin s = TaskCard.Inherited) ∨
  ((s ∉ Object_prototype_keys)
   ∧ TaskCard.getNextStatus isAdmin s = TaskCard.Undefined).
Proof.
  unfold TaskCard.getNextStatus, TaskCard.statusFlow.
  destruct (decide (s = "todo")) as [->|?]; [by left|].
  destruct (decide (s = "in_progress")) as [->|?]; [by right; left|].
  destruct (decide (s = "in_review")) as [->|?].
  { destruct isAdmin; [right; right; left|right; right; right; left]; auto. }
  destruct (decide (s = "done")) as [->|?]; [right; right; right; left; auto|].
  destruct (decide (s = "completed")) as [->|?]; [right; right; right; left; auto|].
  rewrite !lookup_insert_ne, lookup_empty by done.
  case_bool_decide; [right; right; right; right; left|repeat right]; done.
Qed.

(** X9. The status a card offers next is the id of the column to the
    right of the card's own column on the board, so the button never moves
    a card back and never skips a column; and to a user who is no admin
    'completed' is never offered. *)
Theorem getNextStatus_is_the_next_column isAdmin s s' :
  TaskCard.getNextStatus isAdmin s = TaskCard.Next s' →
  (∃ n, columns !! n = Some s ∧ columns !! S n = Some s') ∧
  (isAdmin = false → s' ≠ "completed").
Proof.
  intros Hnext.
  destruct (getNextStatus_cases isAdmin s)
    as [[-> H]|[[-> H]|[(-> & -> & H)|[[_ H]|[[_ H]|[_ H]]]]]];
    rewrite H in Hnext; simplify_eq; (split; [|done]).
  - by exists 0%nat.
  - by exists 1%nat.
  - by exists 2%nat.
Qed.

(** X10. The label of the status button is empty or one of 'Start
    Working', 'Ready for Review' and 'Mark as Completed', never the
    'Move to ...' fallback; computing it throws exactly for a status that
    names a member of [Object.prototype]. *)
Theorem getStatusButtonText_cases isAdmin s :
  (TaskCard.getStatusButtonText (TaskCard.getNextStatus isAdmin s) = None
   ↔ s ∈ Object_prototype_keys) ∧
  ∀ text,
    TaskCard.getStatusButtonText (TaskCard.getNextStatus isAdmin s) = Some text →
    text ∈ [""; "Start Working"; "Ready for Review"; "Mark as Completed"] ∧
    (text = "" ↔ TaskCard.offers (TaskCard.getNextStatus isAdmin s) = false).
Proof.
  destruct (getNextStatus_cases isAdmin s)
    as [[-> H]|[[-> H]|[(-> & -> & H)|[[Hs H]|[[Hs H]|[Hs H]]]]]];
    rewrite H; simpl.
  1-3: split;
    [ split; [done|]; unfold Object_prototype_keys; set_unfold; intuition congruence
    | intros text [= <-]; split; [set_unfold; tauto|done] ].
  - split.
    + split; [done|]. intros Hin. exfalso. revert Hin.
      unfold Object_prototype_keys. set_unfold. intuition congruence.
    + intros text [= <-]. split; [set_unfold; tauto|done].
  - split; [done|]. intros text [=].
  - split; [split; [done|by intros ?]|].
    intros text [= <-]. split; [set_unfold; tauto|done].
Qed.

(** *** The update the user's page sends *)

Lemma find_task_filter (f : Task.t → bool) tasks a t :
  find_task (List.filter f tasks) a = Some t → is_Some (find_task tasks a).
Proof.
  unfold find_task. intros Hfind.
  destruct (list_find _ (List.filter f tasks)) as [[i t']|] eqn:Hi; [|done].
  apply list_find_Some in Hi as (Hi & Hid & _).
  apply list_elem_of_lookup_2, list_elem_of_In, filter_In in Hi as [Hin _].
  apply list_elem_of_In in Hin.
  destruct (list_find (λ t, Task.id t = a) tasks) as [[j t0]|] eqn:Hj; [by eexists|].
  exfalso. eapply list_find_None in Hj. rewrite Forall_forall in Hj. by eapply Hj.
Qed.

Lemma find_task_NoDup tasks t :
  NoDup (Task.id <$> tasks) → t ∈ tasks → find_task tasks (Task.id t) = Some t.
Proof.
  intros Hnodup Hin. unfold find_task.
  by destruct (KanbanBoardCoverage.list_find_NoDup _ _ Hnodup Hin) as [i ->].
Qed.

Section Clock.
Variable now_iso : string.
Variable finished_today : string → bool.

Local Abbreviation handleStatusChange :=
  (UserDashboard.handleStatusChange now_iso).
Local Abbreviation filteredTasks := (UserDashboard.filteredTasks finished_today).

(** Case analysis on the conditions of the handler, in the equation [H]
    that gives its result for the task found by [Hfind]. *)
Ltac payload Hfind H :=
  unfold UserDashboard.handleStatusChange in H; rewrite Hfind in H;
  repeat match type of H with
         | context [String.eqb ?a ?b] =>
             destruct (String.eqb_spec a b); try subst; try discriminate
         | context [truthy ?v] => destruct (truthy v) eqn:?
         | context [Task.pending_approval ?t] =>
             destruct (Task.pending_approval t) eqn:?
         end;
  simpl in H; injection H as <-; simpl.

Lemma handleStatusChange_Some tasks a s task :
  find_task tasks a = Some task →
  ∃ updates, handleStatusChange tasks a s = Some updates ∧
             Updates.status updates = s ∧
             Updates.pending_approval updates ≠ Some true.
Proof.
  intros Hfind. unfold UserDashboard.handleStatusChange. rewrite Hfind.
  eexists. split; [reflexivity|].
  by destruct (_ && _), (_ && _), (_ && _), (_ && _), (String.eqb s "completed"),
       (negb _), (_ && _).
Qed.

(** X11. The user's handler returns early exactly when no task of the
    page has the id; otherwise the update carries the requested status,
    never sets [pending_approval] to true, sets it to false when the task
    was pending approval or the new status is 'completed', and leaves it
    out in every other case. *)
Theorem handleStatusChange_pending_approval tasks taskId status :
  (handleStatusChange tasks taskId status = None ↔ find_task tasks taskId = None) ∧
  ∀ task updates,
    find_task tasks taskId = Some task →
    handleStatusChange tasks taskId status = Some updates →
    Updates.status updates = status ∧
    Updates.pending_approval updates ≠ Some true ∧
    Updates.pending_approval updates
    = if Task.pending_approval task || String.eqb status "completed"
      then Some false else None.
Proof.
  split.
  - unfold UserDashboard.handleStatusChange. by destruct (find_task tasks taskId).
  - intros task updates Hfind H. payload Hfind H; done.
Qed.

(** X12. Committing 'completed' clears [pending_approval] and leaves the
    task with a finish time on either page; the admin's page always
    stamps the current time, the user's page keeps a finish time the task
    has already. *)
Theorem completed_leaves_a_finish_time tasks task taskId updates :
  now_iso ≠ "" →
  find_task tasks taskId = Some task →
  handleStatusChange tasks taskId "completed" = Some updates →
  (Updates.pending_approval updates = Some false ∧
   truthy (Updates.after (Updates.finish_time updates) (Task.finish_time task))
   = true ∧
   (truthy (Task.finish_time task) = true → Updates.finish_time updates = None)) ∧
  (Updates.pending_approval (AdminTasks.handleStatusChange now_iso "completed")
   = Some false ∧
   Updates.finish_time (AdminTasks.handleStatusChange now_iso "completed")
   = Some (Some now_iso)).
Proof.
  intros Hnow%KanbanBoardCoverage.truthy_ne Hfind H. split; [|done].
  payload Hfind H; split_and!; done.
Qed.

(** X13. Moving a task to 'in_review' through the user's page leaves it
    with a finish time, except when the task comes from 'completed' with a
    finish time: the update then clears the finish time and does not set
    it again. *)
Theorem in_review_finish_time tasks task taskId updates :
  now_iso ≠ "" →
  find_task tasks taskId = Some task →
  handleStatusChange tasks taskId "in_review" = Some updates →
  (truthy (Updates.after (Updates.finish_time updates) (Task.finish_time task))
   = true
   ↔ ¬ (Task.status task = "completed" ∧ truthy (Task.finish_time task) = true)) ∧
  (Task.status task = "completed" → truthy (Task.finish_time task) = true →
   Updates.finish_time updates = Some None).
Proof.
  intros Hnow%KanbanBoardCoverage.truthy_ne Hfind H.
  clear finished_today.
  payload Hfind H; simpl in Hnow; intuition (done || congruence).
Qed.

(** X14. After an update that moves a task to 'in_progress' the task has
    a start time, the one it had if it had one; moving it from
    'in_progress' to 'todo' clears the start time; no other update touches
    it. *)
Theorem start_time_follows_in_progress tasks task taskId status updates :
  now_iso ≠ "" →
  find_task tasks taskId = Some task →
  handleStatusChange tasks taskId status = Some updates →
  (status = "in_progress" →
   truthy (Updates.after (Updates.start_time updates) (Task.start_time task)) = true ∧
   (truthy (Task.start_time task) = true → Updates.start_time updates = None)) ∧
  (status = "todo" → Task.status task = "in_progress" →
   Updates.start_time updates = Some None) ∧
  (status ≠ "in_progress" →
   ¬ (status = "todo" ∧ Task.status task = "in_progress") →
   Updates.start_time updates = None).
Proof.
  intros Hnow%KanbanBoardCoverage.truthy_ne Hfind H.
  clear finished_today.
  payload Hfind H; simpl in Hnow; intuition (done || congruence).
Qed.

(** X15. The status button is shown to users only, and what it commits
    is handled without an early return: the update is never 'completed'
    and does not touch [pending_approval]; 'Start Working' leaves the task
    with a start time and 'Ready for Review' with a finish time, its start
    time untouched. *)
Theorem user_button_update isAdmin tasks task a s :
  now_iso ≠ "" →
  find_task tasks (Task.id task) = Some task →
  TaskCard.user_button isAdmin task = Some (a, s) →
  isAdmin = false ∧ a = Task.id task ∧ s ≠ "completed" ∧
  ∃ updates,
    handleStatusChange tasks a s = Some updates ∧
    Updates.status updates = s ∧
    Updates.pending_approval updates = None ∧
    (s = "in_progress" →
     Task.status task = "todo" ∧
     truthy (Updates.after (Updates.start_time updates) (Task.start_time task))
     = true) ∧
    (s = "in_review" →
     Task.status task = "in_progress" ∧
     Updates.start_time updates = None ∧
     truthy (Updates.after (Updates.finish_time updates) (Task.finish_time task))
     = true).
Proof.
  intros Hnow%KanbanBoardCoverage.truthy_ne Hfind. unfold TaskCard.user_button.
  destruct (getNextStatus_cases isAdmin (Task.status task))
    as [[Hs H]|[[Hs H]|[(Hs & -> & H)|[[_ H]|[[_ H]|[_ H]]]]]];
    rewrite H; try done; simpl.
  - destruct isAdmin; [done|]. destruct (Task.pending_approval task) eqn:Hp; [done|].
    intros [= <- <-]. split_and!; try done.
    unfold UserDashboard.handleStatusChange. rewrite Hfind, Hs, Hp. simpl.
    destruct (truthy (Task.start_time task)) eqn:Hst; simpl;
      eexists; (split; [done|]); simpl; split_and!; try done.
  - destruct isAdmin; [done|]. destruct (Task.pending_approval task) eqn:Hp; [done|].
    intros [= <- <-]. split_and!; try done.
    unfold UserDashboard.handleStatusChange. rewrite Hfind, Hs, Hp. simpl.
    destruct (truthy (Task.finish_time task)) eqn:Hst; simpl;
      eexists; (split; [done|]); simpl; split_and!; try done.
Qed.

(** X16. On the user's page, where the board gets [filteredTasks] and
    [isAdmin = false], every status change the board commits is handled
    without an early return; the update carries the committed status,
    which is neither empty nor 'completed', and never sets
    [pending_approval] to true. When the ids of the page's tasks are
    pairwise distinct, the task the handler updates has another status
    than the committed one. *)
Theorem board_commits_are_handled tasks st a s :
  reachable (filteredTasks tasks) false st →
  (a, s) ∈ onStatusChange_calls st →
  s ≠ "" ∧ s ≠ "completed" ∧
  ∃ task updates,
    find_task tasks a = Some task ∧
    handleStatusChange tasks a s = Some updates ∧
    Updates.status updates = s ∧
    Updates.pending_approval updates ≠ Some true ∧
    (NoDup (Task.id <$> tasks) → task ∈ filteredTasks tasks ∧ Task.status task ≠ s).
Proof.
  intros Hreach Hin.
  destruct (KanbanBoardCoverage.reachable_with (filteredTasks tasks) false
              (λ s, s ≠ "" ∧ s ≠ "completed")
              (λ _ _ _ _ _ H1 H2, conj H1 (H2 eq_refl)) st Hreach) as [_ Hcalls].
  destruct (Hcalls a s Hin) as [[Hne Hnc] (t0 & Hfind0 & Hdiff)].
  split_and!; [done..|].
  destruct (find_task_filter _ _ _ _ Hfind0) as [task Hfind].
  destruct (handleStatusChange_Some tasks a s task Hfind)
    as (updates & Hupdates & Hstatus & Hpending).
  exists task, updates. split_and!; [done..|].
  intros Hnodup.
  assert (t0 ∈ filteredTasks tasks ∧ Task.id t0 = a) as [Hin0 Hid].
  { unfold find_task in Hfind0.
    destruct (list_find _ (filteredTasks tasks)) as [[i t']|] eqn:Hi; simplify_eq/=.
    apply list_find_Some in Hi as (Hi & Hid & _).
    split; [by eapply list_elem_of_lookup_2|done]. }
  assert (t0 ∈ tasks) as Hin1.
  { unfold UserDashboard.filteredTasks in Hin0.
    by apply list_elem_of_In, filter_In in Hin0 as [?%list_elem_of_In _]. }
  rewrite <- Hid, (find_task_NoDup _ _ Hnodup Hin1) in Hfind.
  injection Hfind as <-. split; [done|congruence].
Qed.

(** X17. The user's board hides nothing but tasks completed on an earlier
    day: each of the columns 'todo', 'in_progress' and 'in_review' lists
    the page's tasks of that status, in the order of the page's list. *)
Theorem open_tasks_are_on_the_board tasks grouped col :
  tasksByStatus (filteredTasks tasks) = Some grouped →
  col ∈ ["todo"; "in_progress"; "in_review"] →
  column_tasks grouped col = filter (λ t, Task.status t = col) tasks.
Proof.
  intros H Hcol. unfold column_tasks.
  rewrite (KanbanBoardFacts.tasksByStatus_bucket _ _ _ H).
  rewrite bool_decide_eq_true_2
    by (revert Hcol; unfold own_keys; set_unfold; tauto). simpl.
  unfold UserDashboard.filteredTasks. clear H.
  induction tasks as [|t l IH]; [done|]. simpl.
  rewrite !filter_cons.
  destruct (String.eqb_spec (Task.status t) "completed") as [Hc|Hc]; simpl.
  - destruct (negb (truthy (Task.finish_time t))); simpl;
      [|destruct (finished_today _)]; rewrite ?filter_cons;
      rewrite ?(decide_False (P := Task.status t = col)); try done;
      intros <-; revert Hcol; rewrite Hc; set_unfold; intuition congruence.
  - rewrite filter_cons. by case_decide; rewrite IH.
Qed.
End Clock.
End TaskFlowCoverage.

(** * More on the performance report *)

Module ReportCoverage.
Import EmployeePerformance Performance PerformanceFacts.
Local Open Scope Q_scope.

(** *** The keys of [tasksByUser] *)

(** The reduction either throws, on a user id that names a member of
    [Object.prototype], or builds an object with one key for every user
    id of the list. *)
Lemma tasksByUser_cases tasks :
  match tasksByUser tasks with
  | Some obj =>
      NoDup obj.*1 ∧
      (∀ k, k ∈ obj.*1 ↔ k ∈ Task.assigned_user_id <$> tasks) ∧
      Forall (λ t, Task.assigned_user_id t ∉ Object_prototype_keys) tasks
  | None => Exists (λ t, Task.assigned_user_id t ∈ Object_prototype_keys) tasks
  end.
Proof.
  induction tasks as [|task tasks IH] using rev_ind.
  { simpl. split_and!; [constructor|done|constructor]. }
  rewrite tasksByUser_snoc.
  destruct (tasksByUser tasks) as [acc|]; simpl;
    [|by apply Exists_app; left].
  destruct IH as (Hnodup & Hkeys & Hall).
  unfold group_by_user. set (userId := Task.assigned_user_id task).
  destruct (lookup_user acc userId) eqn:Hlook.
  - assert (userId ∈ acc.*1) as Hin.
    { apply dec_stable. intros Hno. apply lookup_user_None in Hno. congruence. }
    rewrite push_user_keys. split_and!; [done| |].
    + intros k. rewrite fmap_app, elem_of_app, Hkeys. simpl.
      rewrite list_elem_of_singleton. split; [by left|].
      intros [?| ->]; [done|]. by apply Hkeys.
    + apply Forall_app. split; [done|]. apply Forall_singleton.
      apply Hkeys, list_elem_of_fmap in Hin as (t & Heq & Ht).
      fold userId. rewrite Heq. rewrite Forall_forall in Hall. by apply Hall.
  - apply lookup_user_None in Hlook. case_bool_decide as Hproto.
    { apply Exists_app. right. by apply Exists_cons_hd. }
    rewrite push_user_keys, fmap_app. simpl. split_and!.
    + apply NoDup_app. split_and!; [done| |apply NoDup_singleton].
      intros k Hk ->%list_elem_of_singleton. done.
    + intros k. by rewrite fmap_app, !elem_of_app, Hkeys.
    + apply Forall_app. split; [done|]. by apply Forall_singleton.
Qed.

(** X18. The report throws exactly when some task is assigned to a user
    id that names a member of [Object.prototype]; the profiles play no
    part in it. *)
Theorem calculateEmployeePerformance_throws_iff getTime now tasks profiles :
  calculateEmployeePerformance getTime now tasks profiles = None
  ↔ ∃ task, task ∈ tasks ∧ Task.assigned_user_id task ∈ Object_prototype_keys.
Proof.
  unfold calculateEmployeePerformance. rewrite <- Exists_exists.
  pose proof (tasksByUser_cases tasks) as Hcases.
  destruct (tasksByUser tasks) as [obj|]; simpl; [|done].
  split; [done|]. intros Hex. destruct Hcases as (_ & _ & Hall).
  apply Exists_exists in Hex as (t & Hin & Hproto).
  rewrite Forall_forall in Hall. by destruct (Hall t Hin).
Qed.

(** *** The order of the entries *)

Lemma Object_entries_split obj :
  (snd <$> omap (λ e : string * list Task.t, i ← array_index e.1; Some (i, e)) obj)
  ++ List.filter (λ e, bool_decide (array_index e.1 = None)) obj ≡ₚ obj.
Proof.
  induction obj as [|e obj IH]; [done|]. simpl.
  destruct (array_index e.1) as [i|]; simpl.
  - by rewrite IH.
  - by rewrite <- Permutation_middle, IH.
Qed.

Lemma Object_entries_Permutation obj : Object_entries obj ≡ₚ obj.
Proof.
  unfold Object_entries. rewrite Array_sort_Permutation. apply Object_entries_split.
Qed.

(** X19. [Object.entries] lists every entry of the object once; when no
    key is an array index, in the order of insertion. *)
Theorem Object_entries_order obj :
  Object_entries obj ≡ₚ obj ∧
  ((∀ e, e ∈ obj → array_index e.1 = None) → Object_entries obj = obj).
Proof.
  split; [apply Object_entries_Permutation|].
  - intros Hnamed. unfold Object_entries.
    assert (omap (λ e : string * list Task.t, i ← array_index e.1; Some (i, e)) obj
            = [] ∧
            List.filter (λ e, bool_decide (array_index e.1 = None)) obj = obj)
      as [-> ->]; [|done].
    induction obj as [|e obj IH]; [done|]. simpl.
    rewrite (Hnamed e) by apply list_elem_of_here. simpl.
    destruct IH as [IH1 IH2].
    { intros e' He'. by apply Hnamed, list_elem_of_further. }
    split; [exact IH1|by f_equal].
Qed.

(** *** The records of the report *)

Section Clock.
Variable getTime : string → option Z.
Variable now : Z.

Local Abbreviation employee := (employee getTime now).
Local Abbreviation performanceData := (performanceData getTime now).
Local Abbreviation calculateEmployeePerformance :=
  (calculateEmployeePerformance getTime now).

Lemma elem_of_performanceData r entries profiles :
  r ∈ performanceData entries profiles ↔
  ∃ e profile,
    e ∈ entries ∧
    snd <$> list_find (λ p, Profile.id p = e.1) profiles = Some profile ∧
    r = employee e.1 e.2 profile.
Proof.
  unfold Performance.performanceData. rewrite list_elem_of_omap. split.
  - intros (e & Hin & Heq). exists e.
    destruct (snd <$> list_find _ profiles) as [profile|]; simplify_eq/=.
    by exists profile.
  - intros (e & profile & Hin & Hfind & ->). exists e. by rewrite Hfind.
Qed.

Lemma NoDup_performanceData entries profiles :
  NoDup entries.*1 → NoDup (id <$> performanceData entries profiles).
Proof.
  induction entries as [|e entries IH]; [constructor|].
  rewrite fmap_cons. intros [Hnotin Hnodup]%NoDup_cons.
  unfold Performance.performanceData. simpl.
  destruct (snd <$> list_find _ profiles) as [profile|]; simpl; [|by apply IH].
  apply NoDup_cons. split; [|by apply IH].
  intros (r & Hid & Hr)%list_elem_of_fmap.
  apply elem_of_performanceData in Hr as (e' & profile' & Hin & _ & ->).
  simpl in Hid. apply Hnotin. rewrite Hid. by apply list_elem_of_fmap_2.
Qed.

(** A record of the report is the record of a user who has a task,
    computed from the tasks of that user and the first profile with the
    user's id. *)
Lemma report_record tasks profiles recs r :
  calculateEmployeePerformance tasks profiles = Some recs →
  r ∈ recs →
  ∃ profile task,
    snd <$> list_find (λ p, Profile.id p = id r) profiles = Some profile ∧
    r = employee (id r) (user_tasks (id r) tasks) profile ∧
    task ∈ tasks ∧ Task.assigned_user_id task = id r.
Proof.
  unfold Performance.calculateEmployeePerformance.
  pose proof (tasksByUser_cases tasks) as Hcases.
  destruct (tasksByUser tasks) as [obj|] eqn:Hobj; [|done]. simpl.
  intros [= <-] Hin. apply elem_of_Array_sort in Hin.
  apply elem_of_performanceData in Hin as ([userId ts] & profile & Hin & Hfind & ->).
  apply elem_of_Object_entries in Hin.
  destruct (tasksByUser_spec _ _ Hobj) as [Hkeys _].
  rewrite (Hkeys _ _ Hin). simpl in *.
  destruct Hcases as (_ & Hdom & _).
  assert (userId ∈ Task.assigned_user_id <$> tasks) as Hu.
  { apply Hdom. by apply (list_elem_of_fmap_2 fst _ (userId, ts)). }
  apply list_elem_of_fmap in Hu as (task & -> & Htask).
  by exists profile, task.
Qed.

(** X20. The report has exactly one record for every user who has both
    a task and a profile, and none for anyone else. *)
Theorem report_has_one_record_per_employee tasks profiles recs :
  calculateEmployeePerformance tasks profiles = Some recs →
  NoDup (id <$> recs) ∧
  ∀ userId,
    userId ∈ id <$> recs ↔
    (∃ task, task ∈ tasks ∧ Task.assigned_user_id task = userId) ∧
    (∃ profile, profile ∈ profiles ∧ Profile.id profile = userId).
Proof.
  intros Hrecs. split.
  - revert Hrecs. unfold Performance.calculateEmployeePerformance.
    pose proof (tasksByUser_cases tasks) as Hcases.
    destruct (tasksByUser tasks) as [obj|]; [|done]. simpl. intros [= <-].
    rewrite Array_sort_Permutation. apply NoDup_performanceData.
    destruct Hcases as (Hnodup & _).
    by rewrite Object_entries_Permutation.
  - intros userId. split.
    + intros (r & -> & Hr)%list_elem_of_fmap.
      destruct (report_record _ _ _ _ Hrecs Hr)
        as (profile & task & Hfind & _ & Htask & Hassigned).
      split; [by exists task|]. exists profile.
      destruct (list_find _ profiles) as [[i p]|] eqn:Hi; simplify_eq/=.
      apply list_find_Some in Hi as (Hi & Hid & _).
      split; [by eapply list_elem_of_lookup_2|done].
    + intros [(task & Htask & Hassigned) (profile & Hprofile & Hid)].
      revert Hrecs. unfold Performance.calculateEmployeePerformance.
      pose proof (tasksByUser_cases tasks) as Hcases.
      destruct (tasksByUser tasks) as [obj|]; [|done]. simpl. intros [= <-].
      destruct Hcases as (_ & Hdom & _).
      assert (userId ∈ obj.*1) as ([k ts] & -> & Hin)%list_elem_of_fmap.
      { apply Hdom. rewrite <- Hassigned. by apply list_elem_of_fmap_2. }
      rewrite <- (Object_entries_Permutation obj) in Hin.
      destruct (list_find (λ p, Profile.id p = k) profiles) as [[i p]|] eqn:Hi.
      * apply list_elem_of_fmap. exists (employee k ts p). split; [done|].
        apply elem_of_Array_sort, elem_of_performanceData.
        exists (k, ts), p. simpl. by rewrite Hi.
      * exfalso. eapply list_find_None in Hi. rewrite Forall_forall in Hi.
        by eapply Hi.
Qed.

(** X21. Every record counts at least one task (so the guards against a
    division by zero tasks never fire), and its counters fit together:
    none is negative, no task is counted both as completed and as
    cancelled, and the overdue tasks are among the counted ones. *)
Theorem record_counters tasks profiles recs r :
  calculateEmployeePerformance tasks profiles = Some recs →
  r ∈ recs →
  (1 ≤ totalTasks r)%Z ∧
  (0 ≤ completedTasks r)%Z ∧
  (0 ≤ cancelledTasks r)%Z ∧
  (completedTasks r + cancelledTasks r ≤ totalTasks r)%Z ∧
  (0 ≤ overdueTasks r ≤ totalTasks r)%Z.
Proof.
  intros Hrecs Hr.
  destruct (report_record _ _ _ _ Hrecs Hr)
    as (profile & task & _ & Heq & Htask & Hassigned).
  remember (id r) as userId eqn:Hid. clear Hid. subst r.
  cbn [totalTasks completedTasks cancelledTasks overdueTasks Performance.employee].
  set (userTasks := user_tasks userId tasks).
  assert (task ∈ userTasks) as Hin by (by apply list_elem_of_filter).
  assert (1 ≤ Z.of_nat (length userTasks))%Z.
  { destruct userTasks; [by apply elem_of_nil in Hin|]. simpl length. lia. }
  pose proof (count_recognised_le userTasks).
  pose proof (count_nonneg (has_status "completed") userTasks).
  pose proof (count_nonneg (has_status "in_progress") userTasks).
  pose proof (count_nonneg (has_status "todo") userTasks).
  pose proof (count_nonneg
                (λ task, has_status "in_review" task || has_status "done" task)
                userTasks).
  pose proof (count_nonneg (is_overdue getTime now) userTasks).
  pose proof (count_le_length (is_overdue getTime now) userTasks).
  unfold or_zero. case_match; lia.
Qed.

(** X22. The name of a record is never empty: it is the full name of
    the first profile with the user's id, or else its e-mail address, or
    else 'Unknown User'; the avatar is that profile's. *)
Theorem record_name tasks profiles recs r :
  calculateEmployeePerformance tasks profiles = Some recs →
  r ∈ recs →
  name r ≠ ""%string ∧
  ∃ i profile,
    list_find (λ p, Profile.id p = id r) profiles = Some (i, profile) ∧
    avatar_url r = Profile.avatar_url profile ∧
    (Profile.full_name profile = Some (name r) ∨
     truthy (Profile.full_name profile) = false ∧
     (name r = Profile.email profile ∨
      Profile.email profile = ""%string ∧ name r = "Unknown User"%string)).
Proof.
  intros Hrecs Hr.
  destruct (report_record _ _ _ _ Hrecs Hr) as (profile & _ & Hfind & Heq & _).
  destruct (list_find _ profiles) as [[i p]|] eqn:Hi; simplify_eq/=.
  remember (id r) as userId eqn:Hid. clear Hid. subst r.
  cbn [name avatar_url Performance.employee].
  assert (∀ s : string, negb (String.eqb s "") = true ↔ s ≠ ""%string) as Hne.
  { intros s. by rewrite negb_true_iff, String.eqb_neq. }
  destruct (Profile.full_name profile) as [full|] eqn:Hfull; simpl.
  - destruct (negb (String.eqb full "")) eqn:Hf.
    + split; [by apply Hne|]. exists i, profile. rewrite Hfull. auto 10.
    + destruct (negb (String.eqb (Profile.email profile) "")) eqn:He.
      * split; [by apply Hne|]. exists i, profile. rewrite Hfull. simpl. auto 10.
      * split; [done|]. exists i, profile. rewrite Hfull. simpl.
        apply negb_false_iff, String.eqb_eq in He. auto 10.
  - destruct (negb (String.eqb (Profile.email profile) "")) eqn:He.
    + split; [by apply Hne|]. exists i, profile. rewrite Hfull. simpl. auto 10.
    + split; [done|]. exists i, profile. rewrite Hfull. simpl.
      apply negb_false_iff, String.eqb_eq in He. auto 10.
Qed.







(** *** The team table of the admin's dashboard *)

Lemma filter_assigned userId (l : list Task.t) :
  List.filter (λ task, String.eqb (Task.assigned_user_id task) userId) l
  = user_tasks userId l.
Proof.
  unfold user_tasks. induction l as [|task l IH]; [done|]. simpl.
  rewrite filter_cons, IH.
  destruct (String.eqb_spec (Task.assigned_user_id task) userId);
    [by rewrite decide_True|by rewrite decide_False].
Qed.

Lemma is_overdue_later now' task :
  (now ≤ now')%Z →
  is_overdue getTime now task = true → is_overdue getTime now' task = true.
Proof.
  intros Hnow. unfold is_overdue. destruct (has_status "completed" task); [done|].
  rewrite !andb_true_r. unfold time_lt.
  destruct (getTime (Task.deadline task)) as [d|]; [|done].
  rewrite !Z.ltb_lt. lia.
Qed.

(** X25. The team table of the admin's dashboard, computed from the same
    task list, agrees with the report: the member of a profile shows the
    same number of tasks and of completed tasks as the record of that
    user; the same number of overdue tasks when both read the same time
    off the clock, and no fewer when the table reads it later. *)
Theorem team_table_agrees_with_report now' tasks profiles recs r profile :
  calculateEmployeePerformance tasks profiles = Some recs →
  r ∈ recs →
  Profile.id profile = id r →
  AdminDashboard.totalTasks (AdminDashboard.enrich getTime now' tasks profile)
  = totalTasks r ∧
  AdminDashboard.completedTasks (AdminDashboard.enrich getTime now' tasks profile)
  = completedTasks r ∧
  (now' = now →
   AdminDashboard.overdueTasks (AdminDashboard.enrich getTime now' tasks profile)
   = overdueTasks r) ∧
  ((now ≤ now')%Z →
   (overdueTasks r
    ≤ AdminDashboard.overdueTasks (AdminDashboard.enrich getTime now' tasks profile))%Z).
Proof.
  intros Hrecs Hr Hid.
  destruct (report_record _ _ _ _ Hrecs Hr) as (p & _ & _ & Heq & _).
  unfold AdminDashboard.enrich.
  cbn [AdminDashboard.totalTasks AdminDashboard.completedTasks
       AdminDashboard.overdueTasks].
  rewrite filter_assigned, Hid.
  remember (id r) as userId eqn:Hu. clear Hu Hid. subst r.
  cbn [totalTasks completedTasks overdueTasks Performance.employee].
  split_and!; [done|done|by intros ->|].
  intros Hnow. apply count_le. intros task. by apply is_overdue_later.
Qed.

(** *** Overdue and on time *)

(** X26. No task passes both the filter of the overdue tasks and that
    of the tasks completed on time, so in any list of tasks the two
    counts together do not exceed the number of tasks. *)
Theorem overdue_or_on_time userTasks :
  (∀ task, is_overdue getTime now task && is_completed_on_time getTime task = false) ∧
  (count (is_overdue getTime now) userTasks
   + count (is_completed_on_time getTime) userTasks
   ≤ Z.of_nat (length userTasks))%Z.
Proof.
  assert (∀ task,
            is_overdue getTime now task && is_completed_on_time getTime task = false)
    as Hexcl.
  { intros task. unfold is_overdue, is_completed_on_time.
    destruct (has_status "completed" task); simpl; [|by rewrite andb_false_r].
    destruct (truthy (Task.finish_time task)); simpl; [|done].
    unfold time_gt, time_lt, time_le.
    destruct (getTime (Task.deadline task)) as [d|],
             (Task.finish_time task ≫= getTime) as [f|]; try done.
    destruct (Z.ltb_spec d f), (Z.leb_spec f d); try done; lia. }
  split; [done|].
  induction userTasks as [|task l IH]; [done|]. rewrite !count_cons.
  specialize (Hexcl task). simpl length.
  destruct (is_overdue getTime now task), (is_completed_on_time getTime task);
    try done; lia.
Qed.

(** *** The average completion time *)

Lemma foldl_add_completion_time l : ∀ total cnt,
  ∃ total',
    foldl (add_completion_time getTime) (total, cnt) l
    = (total',
       (cnt + count (λ task, truthy (Task.start_time task)
                            && truthy (Task.finish_time task)) l)%Z) ∧
    (total' = None ↔
     total = None ∨
     ∃ task, task ∈ l ∧
             truthy (Task.start_time task) && truthy (Task.finish_time task) = true ∧
             (Task.start_time task ≫= getTime = None ∨
              Task.finish_time task ≫= getTime = None)).
Proof.
  induction l as [|task l IH]; intros total cnt.
  { exists total. split; [simpl; f_equal; unfold count; simpl; lia|].
    split; [by left|]. intros [?|(task & []%elem_of_nil & _)]. done. }
  simpl. rewrite count_cons.
  destruct (truthy (Task.start_time task) && truthy (Task.finish_time task)) eqn:Htimed.
  - match goal with
    | |- context [foldl _ (?t, _) l] => destruct (IH t (cnt + 1)%Z) as (total' & -> & Hnone)
    end.
    exists total'. split; [f_equal; lia|]. rewrite Hnone. clear Hnone. split.
    + intros [Hnone|(t & Hin & Ht & Hinvalid)].
      * destruct total as [total|]; [|by left]. right. exists task.
        split; [apply list_elem_of_here|]. split; [done|].
        destruct (Task.finish_time task ≫= getTime); [|by right].
        destruct (Task.start_time task ≫= getTime); [done|by left].
      * right. exists t. split; [by apply list_elem_of_further|done].
    + intros [->|(t & [->|Hin]%elem_of_cons & Ht & Hinvalid)].
      * by left.
      * left. destruct total; [|done].
        destruct Hinvalid as [->| ->]; [|done].
        by destruct (Task.finish_time task ≫= getTime).
      * right. by exists t.
  - destruct (IH total cnt) as (total' & -> & Hnone).
    exists total'. split; [f_equal; lia|]. rewrite Hnone. clear Hnone.
    split; (intros [?|(t & Hin & Ht & Hinvalid)]; [by left|right]).
    + exists t. split; [by apply list_elem_of_further|done].
    + apply elem_of_cons in Hin as [->|Hin]; [congruence|]. by exists t.
Qed.

(** X27. The average completion time of a record is [NaN] exactly when
    the user has a task with a start and a finish time of which one is no
    valid date; it is 0 when no task of the user has both times. *)
Theorem avgCompletionTime_NaN tasks profiles recs r :
  calculateEmployeePerformance tasks profiles = Some recs →
  r ∈ recs →
  (avgCompletionTime r = None ↔
   ∃ task, task ∈ tasks ∧ Task.assigned_user_id task = id r ∧
           truthy (Task.start_time task) && truthy (Task.finish_time task) = true ∧
           (Task.start_time task ≫= getTime = None ∨
            Task.finish_time task ≫= getTime = None)) ∧
  ((∀ task, task ∈ tasks → Task.assigned_user_id task = id r →
            truthy (Task.start_time task) && truthy (Task.finish_time task) = false) →
   ∃ hours, avgCompletionTime r = Some hours ∧ hours == 0).
Proof.
  intros Hrecs Hr.
  destruct (report_record _ _ _ _ Hrecs Hr) as (p & _ & _ & Heq & _).
  remember (id r) as userId eqn:Hu. clear Hu. subst r.
  cbn [avgCompletionTime Performance.employee]. unfold avgCompletionTime_of.
  destruct (foldl_add_completion_time (user_tasks userId tasks) (Some 0) 0%Z)
    as (total' & -> & Hnone).
  split.
  - split.
    + intros Havg.
      destruct (0 <? _)%Z eqn:Hpos; [|done].
      destruct total' as [total'|]; [done|].
      destruct (proj1 Hnone eq_refl) as [?|(task & Hin & Ht & Hinvalid)]; [done|].
      apply list_elem_of_filter in Hin as [Hassigned Hin]. by exists task.
    + intros (task & Hin & Hassigned & Ht & Hinvalid).
      assert (task ∈ user_tasks userId tasks) as Hin'
        by (by apply list_elem_of_filter).
      assert (total' = None) as ->.
      { apply Hnone. right. by exists task. }
      assert (0 < count (λ task, truthy (Task.start_time task)
                                  && truthy (Task.finish_time task))
                    (user_tasks userId tasks))%Z as Hpos.
      { revert Hin'. generalize (user_tasks userId tasks). intros l Hl.
        induction l as [|t l IH]; [by apply elem_of_nil in Hl|].
        rewrite count_cons. pose proof (count_nonneg
          (λ task, truthy (Task.start_time task) && truthy (Task.finish_time task)) l).
        apply elem_of_cons in Hl as [<-|Hl]; [rewrite Ht; lia|].
        specialize (IH Hl). case_match; lia. }
      rewrite Z.add_0_l. apply Z.ltb_lt in Hpos. by rewrite Hpos.
  - intros Huntimed. rewrite count_zero.
    + simpl. eexists. split; [done|]. by apply toFixed1_zero.
    + intros task [Hassigned Hin]%list_elem_of_filter. by apply Huntimed.
Qed.
End Clock.

End ReportCoverage.

(** * The added properties on the sample data *)

Module CoverageSamples.
Import KanbanBoard Samples PageSamples.
Import EmployeePerformance Performance.
Local Open Scope Q_scope.

(** Decides a closed decidable statement by evaluation. *)
Ltac by_evaluation := apply (bool_decide_unpack _); vm_compute; exact I.

(** X2 on a board with an open and a legacy task. *)
Lemma columns_list_their_tasks_in_order_witness :
  ∃ grouped,
    tasksByStatus [open_task; legacy_task] = Some grouped ∧
    column_tasks grouped "todo" = [open_task] ∧
    legacy_task ∉ column_tasks grouped "completed".
Proof.
  destruct (tasksByStatus [open_task; legacy_task]) as [grouped|] eqn:H;
    [|by vm_compute in H].
  exists grouped. split; [reflexivity|].
  destruct (KanbanBoardCoverage.columns_list_their_tasks_in_order _ _ H)
    as [Hcol Hnone].
  split.
  - rewrite (Hcol "todo") by by_evaluation. reflexivity.
  - apply Hnone; by_evaluation.
Defined.

(** X3 on a board with two cards. *)
Lemma shown_card_resolves_to_its_column_witness :
  findContainer [open_task; started_task] (Task.id started_task)
  = Some "in_progress".
Proof.
  destruct (tasksByStatus [open_task; started_task]) as [grouped|] eqn:H;
    [|by vm_compute in H].
  apply (KanbanBoardCoverage.shown_card_resolves_to_its_column
           [open_task; started_task] grouped "in_progress" started_task).
  - by_evaluation.
  - apply Forall_forall. by_evaluation.
  - exact H.
  - by_evaluation.
  - unfold column_tasks.
    rewrite (KanbanBoardFacts.tasksByStatus_bucket _ _ _ H). simpl.
    apply list_elem_of_here.
Defined.

(** X4 during a gesture on the open task. *)
Lemma board_only_rewrites_statuses_witness :
  let tasks := [open_task; started_task] in
  let st := run tasks false (initial tasks)
              [DragStart "41aa"; DragOver "41aa" (Some "in_review")] in
  length (localTasks st) = length tasks ∧
  ∀ i t, localTasks st !! i = Some t →
         ∃ t0, tasks !! i = Some t0 ∧ t = Task.with_status t0 (Task.status t).
Proof.
  intros tasks st.
  apply (KanbanBoardCoverage.board_only_rewrites_statuses tasks false st).
  repeat apply reachable_handle. apply reachable_initial.
Defined.

(** X5 after the open task was dropped on 'in_progress'. *)
Lemma commits_are_real_changes_witness :
  let tasks := [open_task] in
  let st := run tasks false (initial tasks)
              [ DragStart "41aa"; DragOver "41aa" (Some "in_progress");
                DragEnd "41aa" (Some "in_progress") ] in
  onStatusChange_calls st = [("41aa", "in_progress")] ∧
  "in_progress" ≠ "" ∧
  ∃ t0, find_task tasks "41aa" = Some t0 ∧ "in_progress" ≠ Task.status t0.
Proof.
  intros tasks st. split; [reflexivity|].
  apply (KanbanBoardCoverage.commits_are_real_changes tasks false st).
  - repeat apply reachable_handle. apply reachable_initial.
  - apply list_elem_of_here.
Defined.

(** X6 after a user dropped the open task on 'in_review'. *)
Lemma non_admin_never_commits_completed_witness :
  let tasks := [open_task] in
  let st := run tasks false (initial tasks)
              [ DragStart "41aa"; DragOver "41aa" (Some "in_review");
                DragOver "41aa" (Some "completed");
                DragEnd "41aa" (Some "in_review") ] in
  onStatusChange_calls st = [("41aa", "in_review")] ∧ "in_review" ≠ "completed".
Proof.
  intros tasks st. split; [reflexivity|].
  apply (KanbanBoardCoverage.non_admin_never_commits_completed
           tasks false st "41aa").
  - reflexivity.
  - repeat apply reachable_handle. apply reachable_initial.
  - apply list_elem_of_here.
Defined.

(** X7 after an admin dropped the open task on the card of a legacy
    task, which stands for the 'completed' column. *)
Lemma commits_are_column_ids_witness :
  let tasks := [open_task; legacy_task] in
  let st := run tasks true (initial tasks)
              [ DragStart "41aa"; DragOver "41aa" (Some "7c0e");
                DragEnd "41aa" (Some "7c0e") ] in
  onStatusChange_calls st = [("41aa", "completed")] ∧ "completed" ∈ columns.
Proof.
  intros tasks st. split; [reflexivity|].
  apply (KanbanBoardCoverage.commits_are_column_ids tasks true st "41aa").
  - apply Forall_forall. by_evaluation.
  - repeat apply reachable_handle. apply reachable_initial.
  - apply list_elem_of_here.
Defined.

(** X9 at the button of a task in progress. *)
Lemma getNextStatus_is_the_next_column_witness :
  (∃ n, columns !! n = Some "in_progress" ∧ columns !! S n = Some "in_review") ∧
  (false = false → "in_review" ≠ "completed").
Proof.
  apply (TaskFlowCoverage.getNextStatus_is_the_next_column
           false "in_progress" "in_review").
  vm_compute. reflexivity.
Defined.

(** X12 on a task that was never stamped. *)
Lemma completed_leaves_a_finish_time_witness :
  ∃ updates,
    UserDashboard.handleStatusChange now_iso my_tasks "41aa" "completed"
    = Some updates ∧
    Updates.pending_approval updates = Some false ∧
    truthy (Updates.after (Updates.finish_time updates) (Task.finish_time open_task))
    = true.
Proof.
  eexists. split; [reflexivity|].
  destruct (TaskFlowCoverage.completed_leaves_a_finish_time
              now_iso my_tasks open_task "41aa" _ ltac:(discriminate)
              eq_refl eq_refl) as [(Hp & Hf & _) _].
  exact (conj Hp Hf).
Defined.

(** X13 on the task finished a month ago, moved back to 'in_review'. *)
Lemma in_review_finish_time_witness :
  ∃ task updates,
    find_task my_tasks "t0" = Some task ∧
    UserDashboard.handleStatusChange now_iso my_tasks "t0" "in_review"
    = Some updates ∧
    Updates.finish_time updates = Some None.
Proof.
  eexists. eexists. split; [reflexivity|]. split; [reflexivity|].
  refine (proj2 (TaskFlowCoverage.in_review_finish_time
                   now_iso my_tasks _ "t0" _ ltac:(discriminate)
                   eq_refl eq_refl) eq_refl eq_refl).
Defined.

(** X14 on the open task, started. *)
Lemma start_time_follows_in_progress_witness :
  ∃ updates,
    UserDashboard.handleStatusChange now_iso my_tasks "41aa" "in_progress"
    = Some updates ∧
    truthy (Updates.after (Updates.start_time updates) (Task.start_time open_task))
    = true.
Proof.
  eexists. split; [reflexivity|].
  refine (proj1 (proj1 (TaskFlowCoverage.start_time_follows_in_progress
                          now_iso my_tasks open_task "41aa" "in_progress" _
                          ltac:(discriminate) eq_refl eq_refl) eq_refl)).
Defined.

(** X15 at the button of the task in progress. *)
Lemma user_button_update_witness :
  TaskCard.user_button false started_task = Some ("t6", "in_review") ∧
  ∃ updates,
    UserDashboard.handleStatusChange now_iso my_tasks "t6" "in_review"
    = Some updates ∧
    Updates.status updates = "in_review" ∧
    Updates.pending_approval updates = None.
Proof.
  split; [vm_compute; reflexivity|].
  destruct (TaskFlowCoverage.user_button_update now_iso false my_tasks
              started_task "t6" "in_review" ltac:(discriminate) eq_refl
              ltac:(vm_compute; reflexivity))
    as (_ & _ & _ & updates & Hupdates & Hstatus & Hpending & _).
  exists updates. exact (conj Hupdates (conj Hstatus Hpending)).
Defined.

(** X16 on the user's page, after the open task was dropped on
    'in_review'. *)
Lemma board_commits_are_handled_witness :
  let st := run (UserDashboard.filteredTasks finished_today my_tasks) false
              (initial (UserDashboard.filteredTasks finished_today my_tasks))
              [ DragStart "41aa"; DragOver "41aa" (Some "in_review");
                DragEnd "41aa" (Some "in_review") ] in
  onStatusChange_calls st = [("41aa", "in_review")] ∧
  ∃ updates,
    UserDashboard.handleStatusChange now_iso my_tasks "41aa" "in_review"
    = Some updates ∧
    Updates.status updates = "in_review".
Proof.
  intros st. split; [reflexivity|].
  destruct (TaskFlowCoverage.board_commits_are_handled now_iso finished_today
              my_tasks st "41aa" "in_review")
    as (_ & _ & task & updates & _ & Hupdates & Hstatus & _).
  - repeat apply reachable_handle. apply reachable_initial.
  - apply list_elem_of_here.
  - exists updates. exact (conj Hupdates Hstatus).
Defined.

(** X17 on the same page: the task finished a month ago is hidden, the
    open task is shown. *)
Lemma open_tasks_are_on_the_board_witness :
  ∃ grouped,
    tasksByStatus (UserDashboard.filteredTasks finished_today my_tasks)
    = Some grouped ∧
    column_tasks grouped "todo" = [open_task].
Proof.
  destruct (tasksByStatus (UserDashboard.filteredTasks finished_today my_tasks))
    as [grouped|] eqn:H; [|by vm_compute in H].
  exists grouped. split; [reflexivity|].
  rewrite (TaskFlowCoverage.open_tasks_are_on_the_board finished_today
             my_tasks grouped "todo" H) by by_evaluation.
  reflexivity.
Defined.

(** X20 on the sample backlog. *)
Lemma report_has_one_record_per_employee_witness :
  calculateEmployeePerformance getTime march_3 backlog team = Some backlog_report ∧
  NoDup (id <$> backlog_report).
Proof.
  split; [exact PerformanceFacts.backlog_report_eq|].
  apply (ReportCoverage.report_has_one_record_per_employee getTime march_3
           backlog team backlog_report PerformanceFacts.backlog_report_eq).
Defined.

(** X21 on the same list. *)
Lemma record_counters_witness :
  Forall (λ r, (1 ≤ totalTasks r)%Z ∧ (0 ≤ overdueTasks r ≤ totalTasks r)%Z)
         backlog_report.
Proof.
  apply Forall_forall. intros r Hr.
  destruct (ReportCoverage.record_counters getTime march_3 backlog team
              backlog_report r PerformanceFacts.backlog_report_eq Hr)
    as (Htotal & _ & _ & _ & Hoverdue).
  exact (conj Htotal Hoverdue).
Defined.

(** X22 on the same list. *)
Lemma record_name_witness :
  Forall (λ r, name r ≠ ""%string) backlog_report.
Proof.
  apply Forall_forall. intros r Hr.
  apply (ReportCoverage.record_name getTime march_3 backlog team
           backlog_report r PerformanceFacts.backlog_report_eq Hr).
Defined.



(** X25 on the sample backlog, with the table computed at the same
    time. *)
Lemma team_table_agrees_with_report_witness :
  Forall (λ r,
            AdminDashboard.totalTasks (AdminDashboard.enrich getTime march_3 backlog ana)
            = totalTasks r)
         (List.filter (λ r, String.eqb (id r) "u1") backlog_report).
Proof.
  apply Forall_forall. intros r Hr.
  apply list_elem_of_In, filter_In in Hr as [Hr Hid].
  apply list_elem_of_In in Hr. apply String.eqb_eq in Hid.
  apply (ReportCoverage.team_table_agrees_with_report getTime march_3 march_3
           backlog team backlog_report r ana
           PerformanceFacts.backlog_report_eq Hr).
  by rewrite Hid.
Defined.

(** X27 on the same list: every average is a number. *)
Lemma avgCompletionTime_NaN_witness :
  Forall (λ r,
            avgCompletionTime r = None ↔
            ∃ task, task ∈ backlog ∧ Task.assigned_user_id task = id r ∧
                    truthy (Task.start_time task) && truthy (Task.finish_time task)
                    = true ∧
                    (Task.start_time task ≫= getTime = None ∨
                     Task.finish_time task ≫= getTime = None))
         backlog_report.
Proof.
  apply Forall_forall. intros r Hr.
  apply (ReportCoverage.avgCompletionTime_NaN getTime march_3 backlog team
           backlog_report r PerformanceFacts.backlog_report_eq Hr).
Defined.

End CoverageSamples.
